(** * Hybrid encryption session protocol of the card-management front end

    A shallow embedding of the client-side encryption code:

    - [encryptionUtil.ts] (src/src/utils/encryptionUtil.ts): AES-GCM
      encryption of JSON payloads;
    - [rsaEncryptionUtil.ts] (src/unnamed/part_000): RSA-OAEP wrapping
      of the AES key, used by the Add Card page;
    - [encryptionService.ts] (second part of
      src/src/services/userService.ts): per-request sessions, the AES
      key store, [encryptRequest] and [decryptResponse], used by
      [cardService.ts].

    The browser facilities the code calls are modelled as follows.
    [btoa]/[atob], [TextEncoder], [String.prototype.trim] and
    [String.prototype.replace] are implemented, from their
    specifications.  [JSON], [TextDecoder], AES-GCM, the SPKI parser and
    RSA-OAEP are the operations of a [WebPlatform]; what a theorem needs
    of them is an explicit hypothesis of that theorem.  Randomness is a
    tape of bytes read through a cursor.  An [async] function is one
    atomic step of a state and exception monad: interleavings of
    several pending calls at their [await]s are outside this model.
    So are the calls of [console.error], which change no result.

    Three limits of the platform are part of the model, where the size
    they bound comes from the caller.  An engine takes only so many
    arguments in one call ([argument_limit] of the platform), so that
    [String.fromCharCode(...buffer)] throws a [RangeError] on a longer
    buffer: in [encryptPayload], whose buffer grows with the payload,
    and in [generateRandomString].  Where the buffer has the size the
    algorithm fixes (the 32 bytes of an AES key or of a SHA-256 digest,
    an RSA ciphertext, as long as the modulus) the call goes through
    in every engine and is written without the test.
    [crypto.getRandomValues] fills at most 65536 bytes, and
    [new Uint8Array(length)] refuses a negative length and a length
    beyond what the engine allocates ([array_length_limit]).  The key
    store is a plain object: a write to the name [__proto__] stores
    nothing, and a read of a name that is not an own property finds
    what [Object.prototype] has under that name. *)

From Stdlib Require Import NArith ZArith List Lia Bool.
From Stdlib Require Import Strings.Byte Strings.String Strings.Ascii.
From stdpp Require Import base option list gmap.

Local Open Scope N_scope.

(** ** JavaScript values *)

(** A JavaScript string is a sequence of UTF-16 code units. *)
Abbreviation jsstring := (list N).

Definition js (s : string) : jsstring :=
  map N_of_ascii (list_ascii_of_string s).
Arguments js s%_string.

(** [Uint8Array] contents. *)
Abbreviation bytes := (list byte).

(** The byte stored when a number is written into a [Uint8Array]. *)
Definition byte_of_N (n : N) : byte :=
  match Byte.of_N (n mod 256) with
  | Some b => b
  | None => x00
  end.

(** Exceptions the modelled code can see. [Error] is [new Error(msg)];
    the others are thrown by the platform. *)
Inductive exn : Type :=
  | Error (message : jsstring)
  | InvalidCharacterError
  | DataError
  | OperationError
  | SyntaxError
  | RangeError
  | QuotaExceededError.

Inductive result (A : Type) : Type :=
  | Ok (a : A)
  | Throw (e : exn).
Arguments Ok {A} a.
Arguments Throw {A} e.

(** ** [btoa] and [atob] *)

Module Base64.

(** The character of a sextet in the base64 alphabet. *)
Definition b64_char (n : N) : N :=
  if n <? 26 then 65 + n
  else if n <? 52 then 97 + (n - 26)
  else if n <? 62 then 48 + (n - 52)
  else if n =? 62 then 43
  else 47.

(** The sextet of a character of the alphabet. *)
Definition b64_value (c : N) : option N :=
  if (65 <=? c) && (c <=? 90) then Some (c - 65)
  else if (97 <=? c) && (c <=? 122) then Some (c - 97 + 26)
  else if (48 <=? c) && (c <=? 57) then Some (c - 48 + 52)
  else if c =? 43 then Some 62
  else if c =? 47 then Some 63
  else None.

Definition pad : N := 61.

(** [btoa(String.fromCharCode(...bs))]: every code unit is below 256,
    so [btoa] does not throw. *)
Fixpoint btoa_bytes (bs : bytes) : jsstring :=
  match bs with
  | [] => []
  | [a] =>
      let a := Byte.to_N a in
      [b64_char (a / 4); b64_char ((a mod 4) * 16); pad; pad]
  | [a; b] =>
      let a := Byte.to_N a in
      let b := Byte.to_N b in
      [b64_char (a / 4); b64_char ((a mod 4) * 16 + b / 16);
       b64_char ((b mod 16) * 4); pad]
  | a :: b :: c :: rest =>
      let a := Byte.to_N a in
      let b := Byte.to_N b in
      let c := Byte.to_N c in
      b64_char (a / 4) :: b64_char ((a mod 4) * 16 + b / 16)
        :: b64_char ((b mod 16) * 4 + c / 64) :: b64_char (c mod 64)
        :: btoa_bytes rest
  end.

(** The text [btoa] produces, without its padding. *)
Fixpoint unpadded (bs : bytes) : jsstring :=
  match bs with
  | [] => []
  | [a] =>
      let a := Byte.to_N a in
      [b64_char (a / 4); b64_char ((a mod 4) * 16)]
  | [a; b] =>
      let a := Byte.to_N a in
      let b := Byte.to_N b in
      [b64_char (a / 4); b64_char ((a mod 4) * 16 + b / 16);
       b64_char ((b mod 16) * 4)]
  | a :: b :: c :: rest =>
      let a := Byte.to_N a in
      let b := Byte.to_N b in
      let c := Byte.to_N c in
      b64_char (a / 4) :: b64_char ((a mod 4) * 16 + b / 16)
        :: b64_char ((b mod 16) * 4 + c / 64) :: b64_char (c mod 64)
        :: unpadded rest
  end.

(** ASCII whitespace, which [atob] removes first. *)
Definition is_ascii_whitespace (c : N) : bool :=
  (c =? 9) || (c =? 10) || (c =? 12) || (c =? 13) || (c =? 32).

(** When the length is a multiple of four, one or two final [=] are
    removed. *)
Fixpoint drop_final_pad (s : jsstring) : jsstring :=
  match s with
  | [] => []
  | [c] => if c =? pad then [] else [c]
  | [c; d] =>
      if d =? pad then (if c =? pad then [] else [c]) else [c; d]
  | c :: rest => c :: drop_final_pad rest
  end.

Definition strip_padding (s : jsstring) : jsstring :=
  if (N.of_nat (length s) mod 4 =? 0) then drop_final_pad s else s.

Fixpoint sextets (s : jsstring) : option (list N) :=
  match s with
  | [] => Some []
  | c :: rest =>
      match b64_value c, sextets rest with
      | Some v, Some vs => Some (v :: vs)
      | _, _ => None
      end
  end.

(** Four sextets make three bytes; a final group of three makes two
    bytes and one of two makes one byte, the spare bits dropped. *)
Fixpoint bytes_of_sextets (vs : list N) : bytes :=
  match vs with
  | a :: b :: c :: d :: rest =>
      byte_of_N (a * 4 + b / 16) :: byte_of_N ((b mod 16) * 16 + c / 4)
        :: byte_of_N ((c mod 4) * 64 + d) :: bytes_of_sextets rest
  | [a; b; c] =>
      [byte_of_N (a * 4 + b / 16); byte_of_N ((b mod 16) * 16 + c / 4)]
  | [a; b] => [byte_of_N (a * 4 + b / 16)]
  | _ => []
  end.

(** [Uint8Array.from(atob(s), c => c.charCodeAt(0))], and the loop of
    the same effect: the forgiving base64 decoding of the HTML
    standard. *)
Definition atob_bytes (s : jsstring) : result bytes :=
  let data := strip_padding (List.filter (fun c => negb (is_ascii_whitespace c)) s) in
  if N.of_nat (length data) mod 4 =? 1 then Throw InvalidCharacterError
  else match sextets data with
       | None => Throw InvalidCharacterError
       | Some vs => Ok (bytes_of_sextets vs)
       end.

End Base64.


(** ** Strings: [TextEncoder], whitespace, [trim], [replace] *)

Module Utf8.

Definition is_high_surrogate (c : N) : bool := (0xD800 <=? c) && (c <? 0xDC00).
Definition is_low_surrogate (c : N) : bool := (0xDC00 <=? c) && (c <? 0xE000).

Definition encode_code_point (cp : N) : bytes :=
  if cp <? 0x80 then [byte_of_N cp]
  else if cp <? 0x800 then
    [byte_of_N (0xC0 + cp / 64); byte_of_N (0x80 + cp mod 64)]
  else if cp <? 0x10000 then
    [byte_of_N (0xE0 + cp / 4096); byte_of_N (0x80 + (cp / 64) mod 64);
     byte_of_N (0x80 + cp mod 64)]
  else
    [byte_of_N (0xF0 + cp / 262144); byte_of_N (0x80 + (cp / 4096) mod 64);
     byte_of_N (0x80 + (cp / 64) mod 64); byte_of_N (0x80 + cp mod 64)].

Definition replacement_character : N := 0xFFFD.

(** [new TextEncoder().encode(s)]: UTF-8, a surrogate pair encoded as
    one code point and a lone surrogate replaced by U+FFFD. *)
Fixpoint TextEncoder_encode (s : jsstring) : bytes :=
  match s with
  | [] => []
  | c :: rest =>
      if is_high_surrogate c then
        match rest with
        | d :: rest' =>
            if is_low_surrogate d then
              encode_code_point (0x10000 + (c - 0xD800) * 1024 + (d - 0xDC00))
                ++ TextEncoder_encode rest'
            else encode_code_point replacement_character ++ TextEncoder_encode rest
        | [] => encode_code_point replacement_character
        end
      else if is_low_surrogate c then
        encode_code_point replacement_character ++ TextEncoder_encode rest
      else encode_code_point c ++ TextEncoder_encode rest
  end.

End Utf8.

Module JsString.

(** White space and line terminators of ECMAScript: what [trim]
    removes at both ends and what [\s] matches. *)
Definition is_js_whitespace (c : N) : bool :=
  (c =? 9) || (c =? 10) || (c =? 11) || (c =? 12) || (c =? 13) || (c =? 32)
  || (c =? 0xA0) || (c =? 0x1680) || ((0x2000 <=? c) && (c <=? 0x200A))
  || (c =? 0x2028) || (c =? 0x2029) || (c =? 0x202F) || (c =? 0x205F)
  || (c =? 0x3000) || (c =? 0xFEFF).

Fixpoint trim_start (s : jsstring) : jsstring :=
  match s with
  | [] => []
  | c :: rest => if is_js_whitespace c then trim_start rest else s
  end.

(** [s.trim()] *)
Definition trim (s : jsstring) : jsstring :=
  rev (trim_start (rev (trim_start s))).

(** [s.replace(/\s/g, "")] *)
Definition remove_whitespace (s : jsstring) : jsstring :=
  List.filter (fun c => negb (is_js_whitespace c)) s.

(** [Some rest] when [s] is [p] followed by [rest]. *)
Fixpoint strip_prefix (p s : jsstring) : option jsstring :=
  match p, s with
  | [], _ => Some s
  | _ :: _, [] => None
  | a :: p', c :: s' => if a =? c then strip_prefix p' s' else None
  end.

(** [s.replace(p, "")] for a string pattern [p]: the first occurrence
    of [p], if any, is removed. *)
Fixpoint replace_first (p s : jsstring) : jsstring :=
  match strip_prefix p s with
  | Some rest => rest
  | None =>
      match s with
      | [] => []
      | c :: s' => c :: replace_first p s'
      end
  end.

(** The character of which the PEM delimiters are made at both ends. *)
Definition hyphen : N := 45.

(** A string is falsy exactly when it is empty. *)
Definition truthy (s : jsstring) : bool :=
  match s with [] => false | _ :: _ => true end.

(** [s.replace(/a/g, b)] for single characters [a] and [b]. *)
Definition replace_char (a b : N) (s : jsstring) : jsstring :=
  map (fun c => if c =? a then b else c) s.

(** [s.substring(0, n)] *)
Definition substring_to (n : nat) (s : jsstring) : jsstring := firstn n s.

(** Letters, digits, [-] and [_]: the characters a URL takes as they are. *)
Definition is_url_safe (c : N) : bool :=
  ((65 <=? c) && (c <=? 90)) || ((97 <=? c) && (c <=? 122))
  || ((48 <=? c) && (c <=? 57)) || (c =? 45) || (c =? 95).

End JsString.

(** ** Randomness *)

(** The bytes the platform's random generator will hand out, and how
    many were handed out so far. *)
Record entropy : Type := { tape : nat -> byte; cursor : nat }.

Definition draw (n : nat) (e : entropy) : bytes * entropy :=
  (map (tape e) (seq (cursor e) n),
   {| tape := tape e; cursor := (cursor e + n)%nat |}).

(** ** State and exceptions *)

Definition M (S A : Type) : Type := S -> result A * S.

Definition ret {S A : Type} (a : A) : M S A := fun s => (Ok a, s).

Definition throw {S A : Type} (e : exn) : M S A := fun s => (Throw e, s).

Definition bind {S A B : Type} (m : M S A) (k : A -> M S B) : M S B :=
  fun s =>
    match m s with
    | (Ok a, s') => k a s'
    | (Throw e, s') => (Throw e, s')
    end.

(** [try { m } catch (error) { h error }]: what [m] did to the state
    before it threw stays done. *)
Definition try_catch {S A : Type} (m : M S A) (h : exn -> M S A) : M S A :=
  fun s =>
    match m s with
    | (Ok a, s') => (Ok a, s')
    | (Throw e, s') => h e s'
    end.

Definition lift_result {S A : Type} (r : result A) : M S A := fun s => (r, s).

Definition result_bind {A B : Type} (r : result A) (k : A -> result B) : result B :=
  match r with
  | Ok a => k a
  | Throw e => Throw e
  end.

Definition result_catch {A : Type} (r : result A) (h : exn -> result A) : result A :=
  match r with
  | Ok a => Ok a
  | Throw e => h e
  end.

Notation "'let!' x ':=' m 'in' k" := (bind m (fun x => k))
  (at level 10, x pattern, m at level 100, k at level 200).
Notation "'let?' x ':=' r 'in' k" := (result_bind r (fun x => k))
  (at level 10, x pattern, r at level 100, k at level 200).

(** The generator behind [crypto.subtle]: the next [n] bytes. *)
Definition random_bytes (n : nat) : M entropy bytes :=
  fun e => let (bs, e') := draw n e in (Ok bs, e').

(** [crypto.getRandomValues(array)] on an array of [n] bytes: more
    than 65536 bytes are refused. *)
Definition getRandomValues (n : nat) : M entropy bytes :=
  if 65536 <? N.of_nat n then throw QuotaExceededError else random_bytes n.

(** ** The platform: [JSON], [TextDecoder] and the cryptographic primitives *)

Class WebPlatform : Type := {
  (** values [JSON.stringify] serialises to a string *)
  json : Type;
  JSON_stringify : json -> jsstring;
  (** [None] when [JSON.parse] throws a [SyntaxError] *)
  JSON_parse : jsstring -> option json;
  (** [new TextDecoder().decode(buffer)] *)
  TextDecoder_decode : bytes -> jsstring;
  (** authenticated encryption of AES-GCM, no additional data:
      key, IV, tag length in bits and plaintext to ciphertext and tag *)
  GCM_AE : bytes -> bytes -> nat -> bytes -> bytes * bytes;
  (** authenticated decryption: key, IV, ciphertext and tag to the
      plaintext, [None] when the tag does not verify *)
  GCM_AD : bytes -> bytes -> bytes -> bytes -> option bytes;
  (** RSA public keys, and the parser of a DER SubjectPublicKeyInfo *)
  rsa_public : Type;
  parse_spki : bytes -> option rsa_public;
  (** RSA-OAEP with SHA-256 as hash and as MGF1 hash and the empty
      label: public key, seed and message to the ciphertext, as long as
      the modulus, [None] when the message is too long for the modulus *)
  RSA_OAEP_SHA256 : rsa_public -> bytes -> bytes -> option bytes;
  (** the greatest number of arguments a call [f(...array)] takes
      where the code makes it; beyond it the engine throws a
      [RangeError] *)
  argument_limit : N;
  (** the greatest length [new Uint8Array(length)] allocates, at most
      2^53 - 1; beyond it the constructor throws a [RangeError] *)
  array_length_limit : Z;
}.

Section Subtle.

Context `{W : WebPlatform}.

(** [new Uint8Array(length)] for an integer [length]: the number of
    elements, all zero. *)
Definition new_Uint8Array (length : Z) : result nat :=
  if (length <? 0)%Z || (array_length_limit <? length)%Z then Throw RangeError
  else Ok (Z.to_nat length).

(** [String.fromCharCode(...buffer)]: one character per byte, when the
    engine takes that many arguments. The string of characters below
    256 is kept as the list of bytes [btoa] reads. *)
Definition String_fromCharCode_spread (buffer : bytes) : result bytes :=
  if N.of_nat (length buffer) <=? argument_limit then Ok buffer
  else Throw RangeError.

(** [crypto.subtle.importKey('raw', keyData, 'AES-GCM', ...)]: the
    key is 128, 192 or 256 bits long. *)
Definition importKey_raw (keyData : bytes) : result bytes :=
  let n := length keyData in
  if (n =? 16)%nat || (n =? 24)%nat || (n =? 32)%nat then Ok keyData
  else Throw DataError.

(** [crypto.subtle.encrypt({name: 'AES-GCM', iv, tagLength}, key, data)]:
    the ciphertext followed by the tag. *)
Definition encrypt_AES_GCM (key iv : bytes) (tagLength : nat) (data : bytes) : bytes :=
  let (C, T) := GCM_AE key iv tagLength data in C ++ T.

(** [crypto.subtle.decrypt({name: 'AES-GCM', iv, tagLength}, key, data)]:
    the last [tagLength] bits of [data] are the tag. *)
Definition decrypt_AES_GCM (key iv : bytes) (tagLength : nat) (data : bytes) : result bytes :=
  let t := (tagLength / 8)%nat in
  if (length data <? t)%nat then Throw OperationError
  else
    let C := firstn (length data - t) data in
    let T := skipn (length data - t) data in
    match GCM_AD key iv C T with
    | Some plaintext => Ok plaintext
    | None => Throw OperationError
    end.

(** An imported RSA public key. *)
Record CryptoKey : Type := { material : rsa_public; extractable : bool }.

(** [crypto.subtle.importKey('spki', der, {name: 'RSA-OAEP', hash: 'SHA-256'},
    extractable, ['encrypt'])] *)
Definition importKey_spki (der : bytes) (ext : bool) : result CryptoKey :=
  match parse_spki der with
  | Some k => Ok {| material := k; extractable := ext |}
  | None => Throw DataError
  end.

(** [crypto.subtle.encrypt({name: 'RSA-OAEP'}, publicKey, data)]: the
    seed of the padding is as long as a SHA-256 digest. *)
Definition encrypt_RSA_OAEP (publicKey : CryptoKey) (data : bytes) : M entropy bytes :=
  let! seed := random_bytes 32 in
  match RSA_OAEP_SHA256 (material publicKey) seed data with
  | Some c => ret c
  | None => throw OperationError
  end.

End Subtle.

(** ** [src/utils/encryptionUtil.ts] *)

Module EncryptionUtil.
Section EncryptionUtil.

Context `{W : WebPlatform}.

(** [ENCRYPTION_CONFIG] *)
Definition keyLength : nat := 256.
Definition ivLength : nat := 12.
Definition tagLength : nat := 128.

(** [generateKey] and [exportKey] give 32 bytes of the generator;
    [String.fromCharCode] is called with these 32 arguments. *)
Definition generateEncryptionKey : M entropy jsstring :=
  let! exportedKey := random_bytes (keyLength / 8) in
  ret (Base64.btoa_bytes exportedKey).

Definition importKey (base64Key : jsstring) : result bytes :=
  let? keyData := Base64.atob_bytes base64Key in
  importKey_raw keyData.

Record EncryptedPayload : Type :=
  { encryptedData : jsstring; encryptionKey : jsstring }.

Definition encryptPayload (payload : json) (base64Key : option jsstring)
  : M entropy EncryptedPayload :=
  try_catch
    (let! keyToUse :=
       match base64Key with
       | Some k => if JsString.truthy k then ret k else generateEncryptionKey
       | None => generateEncryptionKey
       end in
     let! key := lift_result (importKey keyToUse) in
     let jsonString := JSON_stringify payload in
     let data := Utf8.TextEncoder_encode jsonString in
     let! iv := getRandomValues ivLength in
     let encryptedBuffer := encrypt_AES_GCM key iv tagLength data in
     let combined := iv ++ encryptedBuffer in
     let! characters := lift_result (String_fromCharCode_spread combined) in
     let encryptedBase64 := Base64.btoa_bytes characters in
     ret {| encryptedData := encryptedBase64; encryptionKey := keyToUse |})
    (fun _ => throw (Error (js "Failed to encrypt payload"))).

(** The error [decryptPayload] throws, whatever went wrong. *)
Definition decryption_failed : exn := Error (js "Failed to decrypt payload").

Definition decryptPayload (encryptedBase64 base64Key : jsstring) : result json :=
  result_catch
    (let? key := importKey base64Key in
     let? combined := Base64.atob_bytes encryptedBase64 in
     let iv := firstn ivLength combined in
     let encryptedData := skipn ivLength combined in
     let? decryptedBuffer := decrypt_AES_GCM key iv tagLength encryptedData in
     let jsonString := TextDecoder_decode decryptedBuffer in
     match JSON_parse jsonString with
     | Some v => Ok v
     | None => Throw SyntaxError
     end)
    (fun _ => Throw decryption_failed).

(** [crypto.subtle.digest('SHA-256', data)]: a digest of 32 bytes. *)
Variable SHA256 : bytes -> bytes.

Definition hashString (input : jsstring) : jsstring :=
  let data := Utf8.TextEncoder_encode input in
  let hashArray := SHA256 data in
  Base64.btoa_bytes hashArray.

(** The length defaults to 32. It is taken as an integer: for a
    number with a fraction [new Uint8Array] and [substring] both use
    the integer part, and the call is the call on that integer. No
    error is caught. *)
Definition generateRandomString (length : option Z) : M entropy jsstring :=
  let length := match length with Some n => n | None => 32%Z end in
  let! size := lift_result (new_Uint8Array length) in
  let! array := getRandomValues size in
  let! characters := lift_result (String_fromCharCode_spread array) in
  ret (JsString.substring_to size
         (JsString.replace_char 47 95
            (JsString.replace_char 43 45 (Base64.btoa_bytes characters)))).

End EncryptionUtil.
End EncryptionUtil.

(** ** [src/utils/rsaEncryptionUtil.ts] *)

Module RsaEncryptionUtil.
Section RsaEncryptionUtil.

Context `{W : WebPlatform}.

Definition pemHeader : jsstring := js "-----BEGIN PUBLIC KEY-----".
Definition pemFooter : jsstring := js "-----END PUBLIC KEY-----".

Definition importPublicKey (base64PublicKey : jsstring) : result CryptoKey :=
  result_catch
    (let pemContents :=
       JsString.remove_whitespace
         (JsString.replace_first pemFooter
            (JsString.replace_first pemHeader base64PublicKey)) in
     let? binaryDerArray := Base64.atob_bytes pemContents in
     importKey_spki binaryDerArray false)
    (fun _ => Throw (Error (js "Failed to import RSA public key"))).

Definition encryptWithPublicKey (data : bytes) (base64PublicKey : jsstring)
  : M entropy jsstring :=
  try_catch
    (let! publicKey := lift_result (importPublicKey base64PublicKey) in
     let! encryptedBuffer := encrypt_RSA_OAEP publicKey data in
     ret (Base64.btoa_bytes encryptedBuffer))
    (fun _ => throw (Error (js "Failed to encrypt with RSA public key"))).

Definition encryptAESKey (base64AESKey base64PublicKey : jsstring)
  : M entropy jsstring :=
  try_catch
    (let! aesKeyBytes := lift_result (Base64.atob_bytes base64AESKey) in
     encryptWithPublicKey aesKeyBytes base64PublicKey)
    (fun _ => throw (Error (js "Failed to encrypt AES key with RSA"))).

End RsaEncryptionUtil.
End RsaEncryptionUtil.

(** ** [src/services/encryptionService.ts] *)

Module PublicKeyData.
Record t : Type :=
  { sessionId : jsstring; publicKey : jsstring; expiryTime : jsstring; ttlSeconds : N }.
End PublicKeyData.

Module SessionInfo.
(** [expiryTime] is kept as the text the [Date] was built from. *)
Record t : Type :=
  { sessionId : jsstring; publicKey : jsstring; expiryTime : jsstring }.
End SessionInfo.

Module EncryptedRequest.
Record t : Type :=
  { sessionId : jsstring; encryptedData : jsstring; encryptedKey : jsstring;
    payloadType : option jsstring }.
End EncryptedRequest.

Module EncryptedResponse.
Record t : Type :=
  { sessionId : jsstring; encryptedData : jsstring; encryptedKey : jsstring }.
End EncryptedResponse.

(** ** A plain object used as a map from names to strings *)

Module JsObject.

(** The own properties of an object created by [{}], all of them
    strings. *)
Abbreviation t := (gmap jsstring jsstring).

Definition proto : jsstring := js "__proto__".

(** What a function of the platform converts to, as V8 writes it;
    every engine writes parentheses, braces and brackets. *)
Definition native_function (name : jsstring) : jsstring :=
  js "function " ++ name ++ js "() { [native code] }".

(** What [Object.prototype] holds, given as the string the value
    converts to: its functions, its [constructor], which is [Object],
    and the accessor [__proto__], which reads [Object.prototype]
    itself. *)
Definition inherited (name : jsstring) : option jsstring :=
  if decide (name = proto) then Some (js "[object Object]")
  else if decide (name = js "constructor") then Some (native_function (js "Object"))
  else if bool_decide
            (name ∈ [js "__defineGetter__"; js "__defineSetter__";
                     js "hasOwnProperty"; js "__lookupGetter__";
                     js "__lookupSetter__"; js "isPrototypeOf";
                     js "propertyIsEnumerable"; js "toString"; js "valueOf";
                     js "toLocaleString"])
       then Some (native_function name)
       else None.

(** [object[name]]: the own property, or else what the prototype
    has. An inherited object or function is given as the string it
    converts to, which is what the reader of the key store sees of it:
    the value is tested for truthiness, and an object is truthy as its
    text, never empty, is; then it is handed to [atob], which converts
    its argument to a string. *)
Definition get (name : jsstring) (object : t) : option jsstring :=
  match object !! name with
  | Some value => Some value
  | None => inherited name
  end.

(** [object[name] = value] for a string [value]: the setter of
    [__proto__] ignores a value that is not an object, every other
    name becomes or stays an own property. *)
Definition set (name value : jsstring) (object : t) : t :=
  if decide (name = proto) then object else <[name := value]> object.

End JsObject.

Module EncryptionService.

(** What [axios.get('/encryption/public-key')] comes back with: a
    rejected promise, or a response whose [data.data] is absent or is
    a [PublicKeyData]; an absent field of it reads as the empty string,
    which is falsy as well. *)
Inductive http_reply : Type :=
  | Rejected
  | Response (data : option PublicKeyData.t).

(** The module's variables and the random generator. [aesKeyStore]
    holds the own properties of the object. *)
Record state : Type :=
  { currentSession : option SessionInfo.t;
    aesKeyStore : gmap jsstring jsstring;
    random : entropy }.

Definition set_currentSession (s : option SessionInfo.t) : M state unit :=
  fun st => (Ok tt, {| currentSession := s; aesKeyStore := aesKeyStore st;
                       random := random st |}).

Definition update_aesKeyStore (f : gmap jsstring jsstring -> gmap jsstring jsstring)
  : M state unit :=
  fun st => (Ok tt, {| currentSession := currentSession st;
                       aesKeyStore := f (aesKeyStore st); random := random st |}).

Definition read_aesKeyStore (k : jsstring) : M state (option jsstring) :=
  fun st => (Ok (JsObject.get k (aesKeyStore st)), st).

(** A computation that only draws random bytes, run in the module. *)
Definition with_random {A : Type} (m : M entropy A) : M state A :=
  fun st =>
    let (r, e) := m (random st) in
    (r, {| currentSession := currentSession st; aesKeyStore := aesKeyStore st;
           random := e |}).

(** The errors the two entry points throw, whatever went wrong. *)
Definition encrypt_failure : exn := Error (js "Failed to encrypt request payload").
Definition decrypt_failure : exn := Error (js "Failed to decrypt response payload").

(** The error raised inside [decryptResponse] when no key is on file. *)
Definition unknown_session (sessionId : jsstring) : exn :=
  Error (js "No AES key found for session: " ++ sessionId).

(** The state with another key store. *)
Definition with_store (st : state) (m : gmap jsstring jsstring) : state :=
  {| currentSession := currentSession st; aesKeyStore := m; random := random st |}.

Section EncryptionService.

Context `{W : WebPlatform}.

(** The error [importRSAPublicKeyFromBase64] throws, whatever went wrong. *)
Definition import_failure : exn := Error (js "Failed to import RSA public key").

Definition importRSAPublicKeyFromBase64 (base64Key : jsstring) : result CryptoKey :=
  result_catch
    (if negb (JsString.truthy base64Key)
        || (length (JsString.trim base64Key) =? 0)%nat
     then Throw (Error (js "Public key is empty or invalid"))
     else
       let cleanedKey := JsString.trim base64Key in
       let? binaryDer :=
         result_catch (Base64.atob_bytes cleanedKey)
           (fun _ => Throw (Error (js "Invalid base64 encoding in public key"))) in
       importKey_spki binaryDer true)
    (fun _ => Throw import_failure).

Definition encryptWithRSA (data : jsstring) (publicKey : CryptoKey) : M entropy jsstring :=
  try_catch
    (let dataBuffer := Utf8.TextEncoder_encode data in
     let! encryptedBuffer := encrypt_RSA_OAEP publicKey dataBuffer in
     ret (Base64.btoa_bytes encryptedBuffer))
    (fun _ => throw (Error (js "Failed to encrypt with RSA"))).

Definition getPublicKey (reply : http_reply) : M state SessionInfo.t :=
  try_catch
    (match reply with
     | Rejected => throw (Error (js "Network Error"))
     | Response None => throw (Error (js "Invalid public key response from server"))
     | Response (Some publicKeyData) =>
         if negb (JsString.truthy (PublicKeyData.sessionId publicKeyData))
            || negb (JsString.truthy (PublicKeyData.publicKey publicKeyData))
         then throw (Error (js "Invalid public key response from server"))
         else
           let session :=
             {| SessionInfo.sessionId := PublicKeyData.sessionId publicKeyData;
                SessionInfo.publicKey := PublicKeyData.publicKey publicKeyData;
                SessionInfo.expiryTime := PublicKeyData.expiryTime publicKeyData |} in
           let! _ := set_currentSession (Some session) in
           ret session
     end)
    (fun _ => throw (Error (js "Failed to establish secure session"))).

Definition encryptRequest (payload : json) (payloadType : option jsstring)
    (reply : http_reply) : M state EncryptedRequest.t :=
  try_catch
    (let! session := getPublicKey reply in
     if negb (JsString.truthy (SessionInfo.publicKey session))
     then throw (Error (js "Failed to establish session"))
     else
       let! aesKey := with_random EncryptionUtil.generateEncryptionKey in
       let! _ :=
         update_aesKeyStore (JsObject.set (SessionInfo.sessionId session) aesKey) in
       let! encrypted :=
         with_random (EncryptionUtil.encryptPayload payload (Some aesKey)) in
       let! rsaPublicKey :=
         lift_result (importRSAPublicKeyFromBase64 (SessionInfo.publicKey session)) in
       let! encryptedKey := with_random (encryptWithRSA aesKey rsaPublicKey) in
       ret {| EncryptedRequest.sessionId := SessionInfo.sessionId session;
              EncryptedRequest.encryptedData := EncryptionUtil.encryptedData encrypted;
              EncryptedRequest.encryptedKey := encryptedKey;
              EncryptedRequest.payloadType := payloadType |})
    (fun _ => throw encrypt_failure).

Definition decryptResponse (encryptedResponse : EncryptedResponse.t) : M state json :=
  try_catch
    (let sessionId := EncryptedResponse.sessionId encryptedResponse in
     let encryptedData := EncryptedResponse.encryptedData encryptedResponse in
     let! aesKey := read_aesKeyStore sessionId in
     match aesKey with
     | Some aesKey =>
         if JsString.truthy aesKey then
           let! decrypted :=
             lift_result (EncryptionUtil.decryptPayload encryptedData aesKey) in
           let! _ := update_aesKeyStore (delete sessionId) in
           ret decrypted
         else throw (unknown_session sessionId)
     | None => throw (unknown_session sessionId)
     end)
    (fun _ => throw decrypt_failure).

Definition clearSession : M state unit := set_currentSession None.

Definition getCurrentSession : M state (option SessionInfo.t) :=
  fun st => (Ok (currentSession st), st).

End EncryptionService.
End EncryptionService.

(** ** [fetchPublicKey] of [rsaEncryptionUtil.ts] *)

Module KeyExchange.
Record t : Type := { sessionId : jsstring; publicKey : jsstring }.
End KeyExchange.

Module RsaKeyFetch.

(** What [fetch] comes back with: a rejected promise, or a response
    with its [ok] flag and status text, whose body either is not JSON
    ([None]), or is JSON whose [data] is falsy ([Some None]), or is JSON
    whose [data] is an object; an absent field of it reads as the empty
    string. *)
Inductive fetch_reply : Type :=
  | FetchRejected
  | FetchResponse (ok : bool) (statusText : jsstring)
      (body : option (option PublicKeyData.t)).

Definition fetch_failure : exn :=
  Error (js "Failed to fetch RSA public key from server").

Definition fetchPublicKey (reply : fetch_reply) : result KeyExchange.t :=
  result_catch
    (match reply with
     | FetchRejected => Throw (Error (js "Failed to fetch"))
     | FetchResponse ok statusText body =>
         if negb ok
         then Throw (Error (js "Failed to fetch public key: " ++ statusText))
         else
           match body with
           | None => Throw SyntaxError
           | Some None => Throw (Error (js "Invalid public key response format"))
           | Some (Some d) =>
               if negb (JsString.truthy (PublicKeyData.sessionId d))
                  || negb (JsString.truthy (PublicKeyData.publicKey d))
               then Throw (Error (js "Invalid public key response format"))
               else Ok {| KeyExchange.sessionId := PublicKeyData.sessionId d;
                          KeyExchange.publicKey := PublicKeyData.publicKey d |}
           end
     end)
    (fun _ => Throw fetch_failure).

End RsaKeyFetch.

(** ** The encryption steps of [handleSubmit] in [AddCard.tsx] *)

Module SecureCard.
(** The arguments of [cardService.createCardSecure]. *)
Record t : Type :=
  { sessionId : jsstring; encryptedData : jsstring; encryptedKey : jsstring }.
End SecureCard.

Module AddCard.
Section AddCard.

Context `{W : WebPlatform}.

(** Steps 1 to 3 of the hybrid encryption in [handleSubmit]
    (src/src/pages/AddCard.tsx, and the same in src/src/App.tsx): fetch
    the public key, encrypt the payload under a fresh AES key, wrap that
    key; step 4 posts the three strings. An exception leaves for the
    handler's [catch]. *)
Definition secureSubmission (backendPayload : json) (reply : RsaKeyFetch.fetch_reply)
  : M entropy SecureCard.t :=
  let! session := lift_result (RsaKeyFetch.fetchPublicKey reply) in
  let! encrypted := EncryptionUtil.encryptPayload backendPayload None in
  let! encryptedKey :=
    RsaEncryptionUtil.encryptAESKey (EncryptionUtil.encryptionKey encrypted)
      (KeyExchange.publicKey session) in
  ret {| SecureCard.sessionId := KeyExchange.sessionId session;
         SecureCard.encryptedData := EncryptionUtil.encryptedData encrypted;
         SecureCard.encryptedKey := encryptedKey |}.

End AddCard.
End AddCard.

(** ** An invariant of the key store *)

(** Every session id on file is a non-empty string and every key on
    file is the base64 text of 32 bytes. *)
Definition store_ok (m : gmap jsstring jsstring) : Prop :=
  forall sessionId aesKey, m !! sessionId = Some aesKey ->
    sessionId <> [] /\ exists raw, length raw = 32%nat /\ aesKey = Base64.btoa_bytes raw.

(** ** A small platform to run the model on

    A few JSON values, a decoder of ASCII, a cipher that reverses the
    plaintext and tags it with a checksum and the first bytes of key
    and IV, and an RSA stand-in that returns seed and message.  It has none of the
    security of the real primitives; it has the functional properties
    the theorems below assume of them, and lets the model be evaluated. *)

Module Mock.

(** [null], [true], [false] and the strings [a...a] of [n] letters. *)
Inductive value : Type := VNull | VTrue | VFalse | VLetters (n : nat).

Definition stringify (v : value) : jsstring :=
  match v with
  | VNull => js "null"
  | VTrue => js "true"
  | VFalse => js "false"
  | VLetters n => 34 :: repeat 97 n ++ [34]
  end.

Definition parse (s : jsstring) : option value :=
  if decide (s = js "null") then Some VNull
  else if decide (s = js "true") then Some VTrue
  else if decide (s = js "false") then Some VFalse
  else
    match s with
    | 34 :: t =>
        let n := (length t - 1)%nat in
        if decide (t = repeat 97 n ++ [34]) then Some (VLetters n) else None
    | _ => None
    end.

Definition decode (bs : bytes) : jsstring := map Byte.to_N bs.

Definition checksum (bs : bytes) : byte :=
  byte_of_N (fold_right (fun b sum => Byte.to_N b + sum) 0 bs).

Definition tag (key iv C : bytes) (tagLength : nat) : bytes :=
  firstn (tagLength / 8)
    (checksum (key ++ iv ++ C) :: key ++ iv ++ repeat x00 (tagLength / 8)).

Definition AE (key iv : bytes) (tagLength : nat) (plaintext : bytes) : bytes * bytes :=
  (rev plaintext, tag key iv (rev plaintext) tagLength).

Definition AD (key iv C T : bytes) : option bytes :=
  if decide (map Byte.to_N T = map Byte.to_N (tag key iv C (8 * length T)))
  then Some (rev C) else None.

Definition spki (der : bytes) : option bytes :=
  match der with
  | [] => None
  | _ :: _ => Some der
  end.

Definition oaep (publicKey seed message : bytes) : option bytes :=
  if (length message <=? 190)%nat then Some (seed ++ message) else None.

#[export] Instance platform : WebPlatform :=
  {| json := value;
     JSON_stringify := stringify;
     JSON_parse := parse;
     TextDecoder_decode := decode;
     GCM_AE := AE;
     GCM_AD := AD;
     rsa_public := bytes;
     parse_spki := spki;
     RSA_OAEP_SHA256 := oaep;
     argument_limit := 65536;
     array_length_limit := 4294967295 |}.

(** A tape of random bytes. *)
Definition dice : entropy :=
  {| tape := fun i => if Nat.even i then x2a else xc3; cursor := 0 |}.

Definition sid1 : jsstring := js "session-1".

(** The key endpoint's answer: session [session-1] and a key of three
    DER bytes. *)
Definition reply1 : EncryptionService.http_reply :=
  EncryptionService.Response
    (Some {| PublicKeyData.sessionId := sid1;
             PublicKeyData.publicKey := js "MIIB";
             PublicKeyData.expiryTime := js "2026-01-01T00:00:00Z";
             PublicKeyData.ttlSeconds := 300 |}).

Definition start : EncryptionService.state :=
  {| EncryptionService.currentSession := None;
     EncryptionService.aesKeyStore := ∅;
     EncryptionService.random := dice |}.

(** The state once [encryptRequest] has run on [start]. *)
Definition pending : EncryptionService.state :=
  (EncryptionService.encryptRequest VTrue None reply1 start).2.

(** The request that run returned. *)
Definition request1 : EncryptedRequest.t :=
  match (EncryptionService.encryptRequest VTrue None reply1 start).1 with
  | Ok req => req
  | Throw _ =>
      {| EncryptedRequest.sessionId := []; EncryptedRequest.encryptedData := [];
         EncryptedRequest.encryptedKey := []; EncryptedRequest.payloadType := None |}
  end.

(** The key that run generated. *)
Definition key1 : jsstring := Base64.btoa_bytes (draw 32 dice).1.

(** The envelope that run produced, sent back as the response. *)
Definition echoed : EncryptedResponse.t :=
  {| EncryptedResponse.sessionId := sid1;
     EncryptedResponse.encryptedData := EncryptedRequest.encryptedData request1;
     EncryptedResponse.encryptedKey := [] |}.

(** A response whose tag does not verify: 36 zero bytes. *)
Definition tampered : EncryptedResponse.t :=
  {| EncryptedResponse.sessionId := sid1;
     EncryptedResponse.encryptedData := Base64.btoa_bytes (repeat x00 36);
     EncryptedResponse.encryptedKey := [] |}.

(** A response for a session no key was registered for. *)
Definition stray : EncryptedResponse.t :=
  {| EncryptedResponse.sessionId := js "session-2";
     EncryptedResponse.encryptedData := EncryptedResponse.encryptedData echoed;
     EncryptedResponse.encryptedKey := [] |}.

(** An envelope whose tag verifies under [key1] and whose plaintext,
    [xyz], is not JSON. *)
Definition not_json : jsstring :=
  let iv := repeat x01 12 in
  Base64.btoa_bytes
    (iv ++ (AE (draw 32 dice).1 iv 128 [x78; x79; x7a]).1
        ++ (AE (draw 32 dice).1 iv 128 [x78; x79; x7a]).2).

(** A tape whose bytes count up. *)
Definition counting : entropy :=
  {| tape := fun i => byte_of_N (N.of_nat i); cursor := 0 |}.

(** A public key of 2048 bits, as Java writes it: base64 of the DER
    SubjectPublicKeyInfo. *)
Definition rsa2048 : jsstring :=
  js "MIIBIjANBgkqhkiG9w0BAQEFAAOCAQ8AMIIBCgKCAQEA3YdA6tnLGWsvx+ii2hKk"
  ++ js "fwfs/KJMMJX2TXr+TKqTVLUrvyrepR+gY4zC+FCwJpojqU3gS2dQHMd7oT2OU9R4"
  ++ js "h8Tw445Ne9D1D9U4qcT0thdP8z/s3Q7n0hNbn5/jnzAHs5OlNvV4D57NQ9FS0+dV"
  ++ js "teAN0QNJseSRXaKfKKj6ESkrh/VkRJeIaj8r8D/1cLjZkycLvK8VFSgl+Yd4HA/M"
  ++ js "3Pn8+z52ucU0cZ+ooNjO5KMHaPKWQaVALvqF0YF7iKAO/IJmMNtHXzJnXhNgnJzc"
  ++ js "6lwM13lZc9066GZCKBf6ruURSg8acnuQFUlgJNGw5Wf3ycwXfTa6CjpvEOQ6A810"
  ++ js "6QIDAQAB".

(** An answer of the key endpoint for [session-1] with that key. *)
Definition answer1 : PublicKeyData.t :=
  {| PublicKeyData.sessionId := sid1;
     PublicKeyData.publicKey := rsa2048;
     PublicKeyData.expiryTime := js "2026-01-01T00:00:00Z";
     PublicKeyData.ttlSeconds := 300 |}.

(** The state once [encryptRequest] has run on an empty store with
    the tape [counting]: [session-1] has a key on file. *)
Definition occupied : EncryptionService.state :=
  (EncryptionService.encryptRequest VTrue None
     (EncryptionService.Response (Some answer1))
     {| EncryptionService.currentSession := None;
        EncryptionService.aesKeyStore := ∅;
        EncryptionService.random := counting |}).2.

(** The key on file in [occupied]. *)
Definition older : jsstring := Base64.btoa_bytes (draw 32 counting).1.

(** The key the next request draws. *)
Definition newer : jsstring :=
  Base64.btoa_bytes (draw 32 (EncryptionService.random occupied)).1.

(** A payload whose JSON text has 200000 characters. *)
Definition large : value := VLetters (N.to_nat 199998).

(** An answer of the key endpoint that names the session [__proto__]. *)
Definition answer_proto : PublicKeyData.t :=
  {| PublicKeyData.sessionId := JsObject.proto;
     PublicKeyData.publicKey := rsa2048;
     PublicKeyData.expiryTime := js "2026-01-01T00:00:00Z";
     PublicKeyData.ttlSeconds := 300 |}.

(** A key of 128 bits. *)
Definition key128 : jsstring := Base64.btoa_bytes (repeat x07 16).

(** The envelope of [echoed] as a mail client would fold it: a line
    break and a space after eight characters, a line break at the end. *)
Definition folded : jsstring :=
  let envelope := EncryptedResponse.encryptedData echoed in
  firstn 8 envelope ++ [10; 32] ++ skipn 8 envelope ++ [13; 10].

(** A stand-in for SHA-256. *)
Definition digest (bs : bytes) : bytes := [checksum bs].

(** The body of a PEM file: the key [MIIB] on a line of its own. *)
Definition pem_body : jsstring := [10] ++ js "MIIB" ++ [10].

(** The key [encryptAESKey] wraps [key1] to under the key [MIIB]. *)
Definition wrapped1 : jsstring :=
  match (RsaEncryptionUtil.encryptAESKey key1 (js "MIIB") dice).1 with
  | Ok encryptedKey => encryptedKey
  | Throw _ => []
  end.

(** What [fetch] returns when the key endpoint answers as in [reply1]. *)
Definition fetched1 : RsaKeyFetch.fetch_reply :=
  RsaKeyFetch.FetchResponse true (js "OK")
    (Some (Some {| PublicKeyData.sessionId := sid1;
                   PublicKeyData.publicKey := js "MIIB";
                   PublicKeyData.expiryTime := js "2026-01-01T00:00:00Z";
                   PublicKeyData.ttlSeconds := 300 |})).

(** What the Add Card page sends on that answer. *)
Definition sent1 : SecureCard.t :=
  match (AddCard.secureSubmission VTrue fetched1 dice).1 with
  | Ok sent => sent
  | Throw _ =>
      {| SecureCard.sessionId := []; SecureCard.encryptedData := [];
         SecureCard.encryptedKey := [] |}
  end.

(** The private-key side of [oaep]: the message follows the 32 bytes
    of the seed. *)
Definition unwrap (publicKey ct : bytes) : option bytes := Some (skipn 32 ct).

(** A second session, opened while the first is pending. *)
Definition sid2 : jsstring := js "session-2".

Definition reply2 : EncryptionService.http_reply :=
  EncryptionService.Response
    (Some {| PublicKeyData.sessionId := sid2;
             PublicKeyData.publicKey := js "MIIB";
             PublicKeyData.expiryTime := js "2026-01-01T00:05:00Z";
             PublicKeyData.ttlSeconds := 300 |}).

Definition pending2 : EncryptionService.state :=
  (EncryptionService.encryptRequest VFalse None reply2 pending).2.

Definition request2 : EncryptedRequest.t :=
  match (EncryptionService.encryptRequest VFalse None reply2 pending).1 with
  | Ok req => req
  | Throw _ =>
      {| EncryptedRequest.sessionId := []; EncryptedRequest.encryptedData := [];
         EncryptedRequest.encryptedKey := []; EncryptedRequest.payloadType := None |}
  end.

Definition echoed2 : EncryptedResponse.t :=
  {| EncryptedResponse.sessionId := sid2;
     EncryptedResponse.encryptedData := EncryptedRequest.encryptedData request2;
     EncryptedResponse.encryptedKey := [] |}.

(** An answer of the key endpoint whose public key is not base64. *)
Definition unusable : PublicKeyData.t :=
  {| PublicKeyData.sessionId := sid1;
     PublicKeyData.publicKey := js "@@@@";
     PublicKeyData.expiryTime := js "2026-01-01T00:00:00Z";
     PublicKeyData.ttlSeconds := 300 |}.

End Mock.

(** ** What the theorems assume of the platform *)

Section Laws.

Context (W : WebPlatform).

Definition aes_key_length (key : bytes) : Prop :=
  (length key = 16 \/ length key = 24 \/ length key = 32)%nat.

(** The tag lengths of AES-GCM, in bits. *)
Definition gcm_tag_length (t : nat) : Prop :=
  In t [32; 64; 96; 104; 112; 120; 128]%nat.

(** Under a key of AES, a non-empty IV and a tag length of GCM, the
    ciphertext is as long as the plaintext and the tag has the length
    asked for. *)
Definition GCM_lengths : Prop :=
  forall key iv t P, aes_key_length key -> iv <> [] -> gcm_tag_length t ->
    length (GCM_AE key iv t P).1 = length P
    /\ length (GCM_AE key iv t P).2 = (t / 8)%nat.

(** Decryption under the key and IV of the encryption verifies the
    tag and returns the plaintext. *)
Definition GCM_inverse : Prop :=
  forall key iv t P, aes_key_length key -> iv <> [] -> gcm_tag_length t ->
    GCM_AD key iv (GCM_AE key iv t P).1 (GCM_AE key iv t P).2 = Some P.

(** [JSON.parse] reads back what [JSON.stringify] wrote. *)
Definition JSON_round_trip : Prop :=
  forall v : json, JSON_parse (JSON_stringify v) = Some v.

(** [TextDecoder] reads back the UTF-8 encoding of a JSON text. *)
Definition UTF8_round_trip : Prop :=
  forall v : json,
    TextDecoder_decode (Utf8.TextEncoder_encode (JSON_stringify v))
    = JSON_stringify v.

(** [unwrap], given to the holder of the private key, recovers the
    message from a ciphertext of RSA-OAEP made with a 32-byte seed. *)
Definition RSA_inverse (unwrap : rsa_public -> bytes -> option bytes) : Prop :=
  forall publicKey seed message ct, length seed = 32%nat ->
    RSA_OAEP_SHA256 publicKey seed message = Some ct ->
    unwrap publicKey ct = Some message.

End Laws.

(** * Properties *)

Ltac Zify.zify_post_hook ::= Z.to_euclidean_division_equations.

(** Lists three elements at a time, the way base64 reads bytes. *)
Lemma list_ind3 {A : Type} (P : list A -> Prop) :
  P [] -> (forall a, P [a]) -> (forall a b, P [a; b]) ->
  (forall a b c l, P l -> P (a :: b :: c :: l)) ->
  forall l, P l.
Proof.
  intros H0 H1 H2 H3.
  assert (H : forall l, P l /\ (forall a, P (a :: l)) /\ (forall a b, P (a :: b :: l))).
  { induction l as [|x l (IH0 & IH1 & IH2)].
    - auto.
    - repeat split; auto. }
  intro l. apply H.
Qed.

Lemma byte_of_to_N (b : byte) : byte_of_N (Byte.to_N b) = b.
Proof.
  unfold byte_of_N.
  pose proof (Byte.to_N_bounded b) as Hb.
  rewrite N.mod_small by lia.
  now rewrite Byte.of_to_N.
Qed.

Lemma byte_of_N_eq (n : N) (b : byte) : n = Byte.to_N b -> byte_of_N n = b.
Proof. intros ->. apply byte_of_to_N. Qed.

Module Base64Facts.
Import Base64.

Lemma b64_value_char (n : N) : n < 64 -> b64_value (b64_char n) = Some n.
Proof.
  intros Hn. unfold b64_char.
  destruct (N.ltb_spec n 26);
    [|destruct (N.ltb_spec n 52);
      [|destruct (N.ltb_spec n 62); [|destruct (N.eqb_spec n 62)]]];
    unfold b64_value;
    repeat match goal with
           | |- context [N.leb ?a ?b] => destruct (N.leb_spec a b); simpl
           | |- context [N.eqb ?a ?b] => destruct (N.eqb_spec a b); simpl
           end; try (f_equal; lia); try lia.
Qed.

(** The characters of the alphabet, by their ranges. *)
Lemma b64_char_range (n : N) :
  let c := b64_char n in
  65 <= c <= 90 \/ 97 <= c <= 122 \/ 48 <= c <= 57 \/ c = 43 \/ c = 47.
Proof.
  unfold b64_char.
  destruct (N.ltb_spec n 26);
    [|destruct (N.ltb_spec n 52);
      [|destruct (N.ltb_spec n 62); [|destruct (N.eqb_spec n 62)]]];
    cbv zeta; lia.
Qed.

Lemma b64_char_not_pad (n : N) : (b64_char n =? pad) = false.
Proof.
  pose proof (b64_char_range n) as H. cbv zeta in H.
  unfold pad. apply N.eqb_neq. lia.
Qed.

Lemma b64_char_not_whitespace (n : N) : is_ascii_whitespace (b64_char n) = false.
Proof.
  pose proof (b64_char_range n) as H. cbv zeta in H.
  unfold is_ascii_whitespace.
  repeat match goal with
         | |- context [N.eqb ?a ?b] => destruct (N.eqb_spec a b)
         end; simpl; try reflexivity; lia.
Qed.

Lemma btoa_length (bs : bytes) :
  length (btoa_bytes bs) = (4 * ((length bs + 2) / 3))%nat.
Proof.
  induction bs as [| a | a b | a b c l IH] using list_ind3; try reflexivity.
  cbn [btoa_bytes length]. rewrite IH.
  replace (S (S (S (length l))) + 2)%nat with ((length l + 2) + 1 * 3)%nat by lia.
  rewrite Nat.div_add by lia. lia.
Qed.

Lemma btoa_no_whitespace (bs : bytes) :
  List.filter (fun c => negb (is_ascii_whitespace c)) (btoa_bytes bs) = btoa_bytes bs.
Proof.
  induction bs as [| a | a b | a b c l IH] using list_ind3;
    cbn [btoa_bytes List.filter];
    rewrite ?b64_char_not_whitespace; cbn [negb]; try reflexivity.
  now rewrite IH.
Qed.

Lemma drop_final_pad_cons (c : N) (s : jsstring) :
  (c =? pad) = false -> drop_final_pad (c :: s) = c :: drop_final_pad s.
Proof.
  intros Hc. destruct s as [|d [|e s]]; cbn [drop_final_pad].
  - now rewrite Hc.
  - rewrite Hc. now destruct (d =? pad).
  - reflexivity.
Qed.

Lemma drop_final_pad_btoa (bs : bytes) :
  drop_final_pad (btoa_bytes bs) = unpadded bs.
Proof.
  induction bs as [| a | a b | a b c l IH] using list_ind3;
    cbn [btoa_bytes unpadded];
    rewrite ?drop_final_pad_cons by apply b64_char_not_pad;
    rewrite ?IH; cbn [drop_final_pad];
    rewrite ?N.eqb_refl, ?b64_char_not_pad; reflexivity.
Qed.

Lemma unpadded_length_mod (bs : bytes) :
  (N.of_nat (length (unpadded bs)) mod 4 =? 1) = false.
Proof.
  apply N.eqb_neq.
  induction bs as [| a | a b | a b c l IH] using list_ind3;
    cbn [unpadded length]; lia.
Qed.

Lemma sextets_unpadded (bs : bytes) :
  exists vs, sextets (unpadded bs) = Some vs /\ bytes_of_sextets vs = bs.
Proof.
  induction bs as [| a | a b | a b c l (vs & Hvs & IH)] using list_ind3;
    cbn [unpadded sextets].
  - exists []. auto.
  - pose proof (Byte.to_N_bounded a).
    rewrite !b64_value_char by lia. eexists; split; [reflexivity|].
    cbn [bytes_of_sextets]. f_equal. apply byte_of_N_eq. lia.
  - pose proof (Byte.to_N_bounded a). pose proof (Byte.to_N_bounded b).
    rewrite !b64_value_char by lia. eexists; split; [reflexivity|].
    cbn [bytes_of_sextets]. f_equal; [|f_equal]; apply byte_of_N_eq; lia.
  - pose proof (Byte.to_N_bounded a). pose proof (Byte.to_N_bounded b).
    pose proof (Byte.to_N_bounded c).
    rewrite !b64_value_char by lia. rewrite Hvs. eexists; split; [reflexivity|].
    cbn [bytes_of_sextets]. rewrite IH.
    f_equal; [|f_equal; [|f_equal]]; apply byte_of_N_eq; lia.
Qed.

(** Decoding what was encoded gives the bytes back. *)
Lemma atob_btoa (bs : bytes) : atob_bytes (btoa_bytes bs) = Ok bs.
Proof.
  unfold atob_bytes. rewrite btoa_no_whitespace.
  unfold strip_padding. rewrite btoa_length.
  replace (N.of_nat (4 * ((length bs + 2) / 3)) mod 4 =? 0) with true
    by (symmetry; apply N.eqb_eq; lia).
  rewrite drop_final_pad_btoa, unpadded_length_mod.
  destruct (sextets_unpadded bs) as (vs & -> & ->). reflexivity.
Qed.

End Base64Facts.

Lemma draw_length (n : nat) (e : entropy) : length (draw n e).1 = n.
Proof. unfold draw. cbn. now rewrite length_map, length_seq. Qed.

Module Utf8Facts.
Import Utf8.

(** ASCII text is encoded one byte per character. *)
Lemma encode_ascii (s : jsstring) :
  Forall (fun c => c < 128) s -> TextEncoder_encode s = map byte_of_N s.
Proof.
  induction 1 as [|c s Hc _ IH]; [reflexivity|].
  cbn [TextEncoder_encode map].
  unfold is_high_surrogate, is_low_surrogate, encode_code_point.
  destruct (N.leb_spec 0xD800 c); [lia|].
  destruct (N.leb_spec 0xDC00 c); [lia|].
  destruct (N.ltb_spec c 0x80); [|lia].
  cbn. now rewrite IH.
Qed.

Lemma btoa_ascii (bs : bytes) : Forall (fun c => c < 128) (Base64.btoa_bytes bs).
Proof.
  assert (Hc : forall n, Base64.b64_char n < 128).
  { intro n. pose proof (Base64Facts.b64_char_range n) as H. cbv zeta in H. lia. }
  assert (Hp : Base64.pad < 128) by (unfold Base64.pad; lia).
  induction bs as [| a | a b | a b c l IH] using list_ind3;
    cbn [Base64.btoa_bytes]; repeat constructor; auto.
Qed.

(** The UTF-8 text of a base64 string is as long as the string. *)
Lemma encode_btoa_length (bs : bytes) :
  length (TextEncoder_encode (Base64.btoa_bytes bs))
  = (4 * ((length bs + 2) / 3))%nat.
Proof.
  rewrite encode_ascii by apply btoa_ascii.
  now rewrite length_map, Base64Facts.btoa_length.
Qed.

End Utf8Facts.

Module EncryptionUtilFacts.
Import EncryptionUtil.

Section Facts.

Context `{W : WebPlatform}.

Lemma generateEncryptionKey_run (e : entropy) :
  generateEncryptionKey e = (Ok (Base64.btoa_bytes (draw 32 e).1), (draw 32 e).2).
Proof. reflexivity. Qed.

Lemma importKey_btoa (raw : bytes) :
  length raw = 32%nat -> importKey (Base64.btoa_bytes raw) = Ok raw.
Proof.
  intros H. unfold importKey. rewrite Base64Facts.atob_btoa. cbn.
  unfold importKey_raw. now rewrite H.
Qed.

(** A key [importKey] accepts is not the empty string. *)
Lemma importKey_truthy (base64Key : jsstring) (key : bytes) :
  importKey base64Key = Ok key -> JsString.truthy base64Key = true.
Proof.
  destruct base64Key; [discriminate|reflexivity].
Qed.

Lemma btoa_truthy (raw : bytes) :
  raw <> [] -> JsString.truthy (Base64.btoa_bytes raw) = true.
Proof. destruct raw as [|a [|b [|c l]]]; [congruence| reflexivity ..]. Qed.

(** The tag length of [ENCRYPTION_CONFIG] is one of AES-GCM. *)
Lemma tagLength_is_gcm : gcm_tag_length tagLength.
Proof. unfold gcm_tag_length, tagLength. cbn [In]. tauto. Qed.

(** Within its quota [getRandomValues] hands out the next bytes. *)
Lemma getRandomValues_run (n : nat) (e : entropy) :
  N.of_nat n <= 65536 -> getRandomValues n e = (Ok (draw n e).1, (draw n e).2).
Proof.
  intros Hn. unfold getRandomValues.
  destruct (N.ltb_spec 65536 (N.of_nat n)); [lia|].
  unfold random_bytes. now destruct (draw n e).
Qed.

Lemma getRandomValues_quota (n : nat) (e : entropy) :
  65536 < N.of_nat n -> getRandomValues n e = (Throw QuotaExceededError, e).
Proof.
  intros Hn. unfold getRandomValues.
  destruct (N.ltb_spec 65536 (N.of_nat n)); [reflexivity|lia].
Qed.

Lemma spread_within (buffer : bytes) :
  N.of_nat (length buffer) <= argument_limit ->
  String_fromCharCode_spread buffer = Ok buffer.
Proof.
  intros H. unfold String_fromCharCode_spread.
  destruct (N.leb_spec (N.of_nat (length buffer)) argument_limit); [reflexivity|lia].
Qed.

Lemma spread_beyond (buffer : bytes) :
  argument_limit < N.of_nat (length buffer) ->
  String_fromCharCode_spread buffer = Throw RangeError.
Proof.
  intros H. unfold String_fromCharCode_spread.
  destruct (N.leb_spec (N.of_nat (length buffer)) argument_limit); [lia|reflexivity].
Qed.

(** The error [encryptPayload] throws, whatever went wrong. *)
Lemma encryptPayload_throws (payload : json) (base64Key : option jsstring)
    (e e' : entropy) (x : exn) :
  encryptPayload payload base64Key e = (Throw x, e') ->
  x = Error (js "Failed to encrypt payload").
Proof.
  unfold encryptPayload, try_catch, throw.
  destruct (bind _ _ e) as [[r|x'] e1]; [discriminate|]. now intros [= <- _].
Qed.

(** What [encryptPayload] does with a key that imports: the envelope
    is returned when the engine takes its bytes as arguments. *)
Lemma encryptPayload_run (payload : json) (base64Key : jsstring) (key : bytes)
    (e : entropy) :
  importKey base64Key = Ok key ->
  let iv := (draw 12 e).1 in
  let CT := GCM_AE key iv 128 (Utf8.TextEncoder_encode (JSON_stringify payload)) in
  let combined := iv ++ CT.1 ++ CT.2 in
  encryptPayload payload (Some base64Key) e
  = (if N.of_nat (length combined) <=? argument_limit
     then Ok {| encryptedData := Base64.btoa_bytes combined;
                encryptionKey := base64Key |}
     else Throw (Error (js "Failed to encrypt payload")),
     (draw 12 e).2).
Proof.
  intros Hk. cbv zeta.
  unfold encryptPayload, try_catch, bind.
  rewrite (importKey_truthy _ _ Hk).
  unfold ret, lift_result. rewrite Hk.
  unfold ivLength. rewrite getRandomValues_run by (cbn; lia).
  unfold tagLength, encrypt_AES_GCM, String_fromCharCode_spread, throw.
  destruct (draw 12 e) as [iv e'] eqn:Hd. cbn [fst snd].
  destruct (GCM_AE key iv 128 _) as [C T]. cbn [fst snd].
  now destruct (_ <=? _).
Qed.

(** Under the length law of AES-GCM the envelope has the 12 bytes of
    the IV, the bytes of the plaintext and the 16 bytes of the tag. *)
Lemma envelope_length (key iv plaintext : bytes) :
  GCM_lengths W -> aes_key_length key -> length iv = 12%nat ->
  let CT := GCM_AE key iv 128 plaintext in
  length (iv ++ CT.1 ++ CT.2) = (12 + length plaintext + 16)%nat.
Proof.
  intros Hlen Hkey Hiv. cbv zeta.
  assert (Hne : iv <> []) by (intros H0; now rewrite H0 in Hiv).
  destruct (Hlen key iv 128%nat plaintext Hkey Hne tagLength_is_gcm) as [HC HT].
  change (128 / 8)%nat with 16%nat in HT.
  rewrite !length_app, Hiv, HC, HT. lia.
Qed.

(** With a key that imports and an envelope within the limit. *)
Lemma encryptPayload_within (payload : json) (base64Key : jsstring) (key : bytes)
    (e : entropy) :
  importKey base64Key = Ok key ->
  let iv := (draw 12 e).1 in
  let CT := GCM_AE key iv 128 (Utf8.TextEncoder_encode (JSON_stringify payload)) in
  N.of_nat (length (iv ++ CT.1 ++ CT.2)) <= argument_limit ->
  encryptPayload payload (Some base64Key) e
  = (Ok {| encryptedData := Base64.btoa_bytes (iv ++ CT.1 ++ CT.2);
           encryptionKey := base64Key |},
     (draw 12 e).2).
Proof.
  intros Hk. cbv zeta. intros Hsize.
  rewrite (encryptPayload_run payload _ _ e Hk). cbv zeta.
  apply N.leb_le in Hsize. now rewrite Hsize.
Qed.

(** With a key that imports and an envelope beyond the limit: the IV
    was drawn, and the call throws. *)
Lemma encryptPayload_beyond (payload : json) (base64Key : jsstring) (key : bytes)
    (e : entropy) :
  importKey base64Key = Ok key ->
  let iv := (draw 12 e).1 in
  let CT := GCM_AE key iv 128 (Utf8.TextEncoder_encode (JSON_stringify payload)) in
  argument_limit < N.of_nat (length (iv ++ CT.1 ++ CT.2)) ->
  encryptPayload payload (Some base64Key) e
  = (Throw (Error (js "Failed to encrypt payload")), (draw 12 e).2).
Proof.
  intros Hk. cbv zeta. intros Hsize.
  rewrite (encryptPayload_run payload _ _ e Hk). cbv zeta.
  apply N.leb_gt in Hsize. now rewrite Hsize.
Qed.

(** A returned envelope, taken apart. *)
Lemma encryptPayload_returned (payload : json) (base64Key : jsstring) (key : bytes)
    (e e' : entropy) (r : EncryptedPayload) :
  importKey base64Key = Ok key ->
  encryptPayload payload (Some base64Key) e = (Ok r, e') ->
  let iv := (draw 12 e).1 in
  let CT := GCM_AE key iv 128 (Utf8.TextEncoder_encode (JSON_stringify payload)) in
  N.of_nat (length (iv ++ CT.1 ++ CT.2)) <= argument_limit
  /\ encryptedData r = Base64.btoa_bytes (iv ++ CT.1 ++ CT.2)
  /\ encryptionKey r = base64Key
  /\ e' = (draw 12 e).2.
Proof.
  intros Hk H. cbv zeta. rewrite (encryptPayload_run payload _ _ e Hk) in H.
  cbv zeta in H.
  destruct (N.leb_spec
              (N.of_nat (length ((draw 12 e).1
                 ++ (GCM_AE key (draw 12 e).1 128
                       (Utf8.TextEncoder_encode (JSON_stringify payload))).1
                 ++ (GCM_AE key (draw 12 e).1 128
                       (Utf8.TextEncoder_encode (JSON_stringify payload))).2)))
              argument_limit) as [Hle|Hgt].
  - apply pair_equal_spec in H. destruct H as [H <-].
    injection H as <-. repeat split. exact Hle.
  - apply pair_equal_spec in H. destruct H as [H _]. discriminate H.
Qed.

End Facts.
End EncryptionUtilFacts.

Module SymmetricCipher.
Import EncryptionUtil EncryptionUtilFacts.

Section Theorems.

Context `{W : WebPlatform}.

Lemma decrypt_AES_GCM_split (key iv C T : bytes) :
  length T = 16%nat ->
  decrypt_AES_GCM key iv tagLength (C ++ T)
  = match GCM_AD key iv C T with
    | Some P => Ok P
    | None => Throw OperationError
    end.
Proof.
  intros HT. unfold decrypt_AES_GCM, tagLength.
  change (128 / 8)%nat with 16%nat.
  rewrite length_app, HT.
  destruct (Nat.ltb_spec (length C + 16) 16); [lia|].
  replace (length C + 16 - 16)%nat with (length C) by lia.
  rewrite firstn_app, Nat.sub_diag, firstn_all, firstn_O, app_nil_r.
  rewrite skipn_app, Nat.sub_diag, skipn_all, skipn_O. reflexivity.
Qed.

(** Decrypting an envelope [IV ‖ C ‖ T] built under an imported key. *)
Lemma decryptPayload_envelope (base64Key : jsstring) (key iv C T : bytes) :
  importKey base64Key = Ok key ->
  length iv = 12%nat -> length T = 16%nat ->
  decryptPayload (Base64.btoa_bytes (iv ++ C ++ T)) base64Key
  = match GCM_AD key iv C T with
    | Some P =>
        match JSON_parse (TextDecoder_decode P) with
        | Some v => Ok v
        | None => Throw decryption_failed
        end
    | None => Throw decryption_failed
    end.
Proof.
  intros Hk Hiv HT. unfold decryptPayload.
  rewrite Hk, Base64Facts.atob_btoa. cbn [result_bind]. unfold ivLength.
  rewrite firstn_app, <- Hiv, Nat.sub_diag, firstn_all, firstn_O, app_nil_r.
  rewrite skipn_app, Nat.sub_diag, skipn_all, skipn_O. cbn [app].
  rewrite decrypt_AES_GCM_split by assumption.
  destruct (GCM_AD key iv C T) as [P|]; [|reflexivity].
  cbn [result_bind]. now destruct (JSON_parse _).
Qed.

(** Every failure of [decryptPayload] is the one generic error. *)
Lemma decryptPayload_throws (encryptedBase64 base64Key : jsstring) (e : exn) :
  decryptPayload encryptedBase64 base64Key = Throw e -> e = decryption_failed.
Proof.
  unfold decryptPayload, result_catch.
  destruct (result_bind _ _); congruence.
Qed.

(** C4 (as the code has it). With the key imported and the envelope
    decoded, [decryptPayload] never returns data when the envelope is
    too short to hold a tag or when the tag does not verify, and it
    fails as well when the tag verifies but the plaintext is not JSON;
    in all these cases it throws the same
    [Error('Failed to decrypt payload')], so that a failed
    authentication and a failed deserialisation cannot be told apart.
    It returns the parsed value when the tag verifies and the
    plaintext is JSON. *)
Theorem decryptPayload_failures_coincide (encryptedBase64 base64Key : jsstring)
    (key combined : bytes) :
  importKey base64Key = Ok key ->
  Base64.atob_bytes encryptedBase64 = Ok combined ->
  let iv := firstn 12 combined in
  let data := skipn 12 combined in
  let C := firstn (length data - 16) data in
  let T := skipn (length data - 16) data in
  ((length data < 16)%nat ->
     decryptPayload encryptedBase64 base64Key = Throw decryption_failed)
  /\ (GCM_AD key iv C T = None ->
        decryptPayload encryptedBase64 base64Key = Throw decryption_failed)
  /\ (forall P, (16 <= length data)%nat -> GCM_AD key iv C T = Some P ->
        JSON_parse (TextDecoder_decode P) = None ->
        decryptPayload encryptedBase64 base64Key = Throw decryption_failed)
  /\ (forall P v, (16 <= length data)%nat -> GCM_AD key iv C T = Some P ->
        JSON_parse (TextDecoder_decode P) = Some v ->
        decryptPayload encryptedBase64 base64Key = Ok v).
Proof.
  intros Hk Hc. cbv zeta.
  unfold decryptPayload. rewrite Hk, Hc. cbn [result_bind].
  unfold decrypt_AES_GCM, tagLength, ivLength.
  change (128 / 8)%nat with 16%nat.
  destruct (Nat.ltb_spec (length (skipn 12 combined)) 16) as [Hlt|Hge].
  - repeat split; intros; try reflexivity; lia.
  - repeat split.
    + intros; lia.
    + now intros ->.
    + intros P _ -> Hp. cbn [result_bind]. now rewrite Hp.
    + intros P v _ -> Hp. cbn [result_bind]. now rewrite Hp.
Qed.

(** Decrypting the envelope that encryption under an imported key
    builds around an IV of 12 bytes. *)
Lemma decryptPayload_built (payload : json) (base64Key : jsstring)
    (key iv : bytes) :
  GCM_lengths W -> GCM_inverse W -> JSON_round_trip W -> UTF8_round_trip W ->
  importKey base64Key = Ok key ->
  aes_key_length key ->
  length iv = 12%nat ->
  let CT := GCM_AE key iv 128 (Utf8.TextEncoder_encode (JSON_stringify payload)) in
  decryptPayload (Base64.btoa_bytes (iv ++ CT.1 ++ CT.2)) base64Key = Ok payload.
Proof.
  intros Hlen Hinv Hjson Hutf Hk Hkey Hiv. cbv zeta.
  assert (Hne : iv <> []) by (intros H0; now rewrite H0 in Hiv).
  destruct (Hlen key iv 128%nat
              (Utf8.TextEncoder_encode (JSON_stringify payload)) Hkey Hne
              tagLength_is_gcm) as [_ HT].
  change (128 / 8)%nat with 16%nat in HT.
  rewrite (decryptPayload_envelope _ key) by assumption.
  rewrite Hinv by (assumption || apply tagLength_is_gcm). now rewrite Hutf, Hjson.
Qed.

(** C6 (what the code does). Under the functional correctness of
    AES-GCM and of the JSON and UTF-8 codecs, for every payload and
    every key that [generateEncryptionKey] produces: when the envelope,
    12 + N + 16 bytes for a JSON text of N bytes, is within the number
    of arguments the engine takes, [encryptPayload] returns it and
    [decryptPayload] under the same key returns the payload; when it
    is beyond, [encryptPayload] throws
    [Error('Failed to encrypt payload')] after drawing the IV, and
    there is nothing to decrypt. Every envelope that is returned
    decrypts to the payload. *)
Theorem encrypt_decrypt_round_trip (payload : json) (e0 e : entropy) :
  GCM_lengths W -> GCM_inverse W -> JSON_round_trip W -> UTF8_round_trip W ->
  let size :=
    (12 + length (Utf8.TextEncoder_encode (JSON_stringify payload)) + 16)%nat in
  exists key e1,
    generateEncryptionKey e0 = (Ok key, e1)
    /\ (N.of_nat size <= argument_limit ->
        exists envelope e',
          encryptPayload payload (Some key) e
          = (Ok {| encryptedData := envelope; encryptionKey := key |}, e')
          /\ decryptPayload envelope key = Ok payload)
    /\ (argument_limit < N.of_nat size ->
        encryptPayload payload (Some key) e
        = (Throw (Error (js "Failed to encrypt payload")), (draw 12 e).2))
    /\ (forall r e',
          encryptPayload payload (Some key) e = (Ok r, e') ->
          decryptPayload (encryptedData r) key = Ok payload).
Proof.
  intros Hlen Hinv Hjson Hutf. cbv zeta.
  rewrite generateEncryptionKey_run.
  set (raw := (draw 32 e0).1).
  assert (Hraw : length raw = 32%nat) by apply draw_length.
  assert (Hk : importKey (Base64.btoa_bytes raw) = Ok raw) by now apply importKey_btoa.
  assert (Hiv : length (draw 12 e).1 = 12%nat) by apply draw_length.
  assert (Hkey : aes_key_length raw) by (unfold aes_key_length; auto).
  pose proof (envelope_length raw (draw 12 e).1
                (Utf8.TextEncoder_encode (JSON_stringify payload)) Hlen Hkey Hiv)
    as Hsize.
  pose proof (decryptPayload_built payload _ raw (draw 12 e).1
                Hlen Hinv Hjson Hutf Hk Hkey Hiv) as Hdec.
  cbv zeta in Hsize, Hdec.
  eexists _, _. split; [reflexivity|]. split; [|split].
  - intros Hle. eexists _, _. split; [|exact Hdec].
    apply (encryptPayload_within payload _ _ e Hk). now rewrite Hsize.
  - intros Hgt. apply (encryptPayload_beyond payload _ _ e Hk). now rewrite Hsize.
  - intros r e' H.
    destruct (encryptPayload_returned payload _ _ e e' r Hk H) as (_ & -> & _).
    exact Hdec.
Qed.

(** C7. Format: for every payload and 32-byte key, an envelope that
    [encryptPayload] returns decodes to the 12 random bytes of the IV,
    then a ciphertext as long as the UTF-8 JSON text of the payload,
    then a 16-byte tag, 12 + N + 16 bytes in all, and one is returned
    whenever the engine takes that many arguments; and
    [generateEncryptionKey] always returns a base64 string that decodes
    to 32 bytes. *)
Theorem envelope_and_key_format (payload : json) (raw : bytes) (e : entropy) :
  GCM_lengths W ->
  length raw = 32%nat ->
  let plaintext := Utf8.TextEncoder_encode (JSON_stringify payload) in
  (forall r e',
      encryptPayload payload (Some (Base64.btoa_bytes raw)) e = (Ok r, e') ->
      exists iv C T,
        encryptedData r = Base64.btoa_bytes (iv ++ C ++ T)
        /\ encryptionKey r = Base64.btoa_bytes raw
        /\ Base64.atob_bytes (encryptedData r) = Ok (iv ++ C ++ T)
        /\ (iv, e') = draw 12 e
        /\ (C, T) = GCM_AE raw iv 128 plaintext
        /\ firstn 12 (iv ++ C ++ T) = iv
        /\ length iv = 12%nat
        /\ length C = length plaintext
        /\ length T = 16%nat
        /\ length (iv ++ C ++ T) = (12 + length plaintext + 16)%nat)
  /\ (N.of_nat (12 + length plaintext + 16) <= argument_limit ->
      exists r e',
        encryptPayload payload (Some (Base64.btoa_bytes raw)) e = (Ok r, e'))
  /\ (exists key e1 decoded,
         generateEncryptionKey e = (Ok key, e1)
         /\ Base64.atob_bytes key = Ok decoded
         /\ length decoded = 32%nat).
Proof.
  intros Hlen Hraw plaintext.
  assert (Hk : importKey (Base64.btoa_bytes raw) = Ok raw) by now apply importKey_btoa.
  assert (Hiv : length (draw 12 e).1 = 12%nat) by apply draw_length.
  assert (Hkey : aes_key_length raw) by (unfold aes_key_length; auto).
  assert (Hne : (draw 12 e).1 <> []) by (intros H0; now rewrite H0 in Hiv).
  destruct (Hlen raw (draw 12 e).1 128%nat plaintext Hkey Hne tagLength_is_gcm)
    as [HC HT].
  change (128 / 8)%nat with 16%nat in HT.
  pose proof (envelope_length raw (draw 12 e).1 plaintext Hlen Hkey Hiv) as Hsize.
  cbv zeta in Hsize.
  split; [|split].
  - intros r e' H.
    destruct (encryptPayload_returned payload _ _ e e' r Hk H)
      as (_ & Hdata & Hkeep & ->).
    exists (draw 12 e).1, (GCM_AE raw (draw 12 e).1 128 plaintext).1,
      (GCM_AE raw (draw 12 e).1 128 plaintext).2.
    split; [exact Hdata|]. split; [exact Hkeep|].
    split; [rewrite Hdata; apply Base64Facts.atob_btoa|].
    split; [now destruct (draw 12 e)|].
    split; [now destruct (GCM_AE raw _ 128 plaintext)|].
    split.
    { rewrite firstn_app, <- Hiv, Nat.sub_diag, firstn_all, firstn_O.
      apply app_nil_r. }
    repeat split; assumption.
  - intros Hle. eexists _, _.
    apply (encryptPayload_within payload _ _ e Hk). fold plaintext. now rewrite Hsize.
  - rewrite generateEncryptionKey_run.
    eexists _, _, _. split; [reflexivity|].
    split; [apply Base64Facts.atob_btoa|apply draw_length].
Qed.

(** A call without a key is a call with a freshly generated one. *)
Lemma encryptPayload_without_key (payload : json) (e : entropy) :
  encryptPayload payload None e
  = encryptPayload payload (Some (Base64.btoa_bytes (draw 32 e).1)) (draw 32 e).2.
Proof.
  assert (Ht : JsString.truthy (Base64.btoa_bytes (draw 32 e).1) = true).
  { apply btoa_truthy. pose proof (draw_length 32 e) as H.
    now destruct (draw 32 e).1. }
  unfold encryptPayload, try_catch.
  set (k := fun keyToUse : jsstring => bind (lift_result (importKey keyToUse)) _).
  unfold bind at 1 2. rewrite Ht, generateEncryptionKey_run. unfold ret.
  reflexivity.
Qed.

(** The empty string is falsy: it stands for no key. *)
Lemma encryptPayload_empty_key (payload : json) (e : entropy) :
  encryptPayload payload (Some []) e = encryptPayload payload None e.
Proof. unfold encryptPayload. cbn [JsString.truthy]. reflexivity. Qed.

(** Any other string, when the call returns, is returned as it came. *)
Lemma encryptPayload_returns_key (payload : json) (base64Key : jsstring)
    (e e' : entropy) (r : EncryptedPayload) :
  base64Key <> [] ->
  encryptPayload payload (Some base64Key) e = (Ok r, e') ->
  encryptionKey r = base64Key.
Proof.
  intros Hne H.
  destruct (importKey base64Key) as [key|x] eqn:Hk.
  - now destruct (encryptPayload_returned payload _ _ e e' r Hk H) as (_ & _ & -> & _).
  - exfalso. revert H. unfold encryptPayload, try_catch. unfold bind at 1 2.
    destruct base64Key as [|c k]; [congruence|]. cbn [JsString.truthy].
    unfold ret at 1, lift_result at 1. rewrite Hk. discriminate.
Qed.

(** C10 (as the code has it). The key parameter is optional. Without
    a key, and with the empty string for a key, [encryptPayload] takes
    the next 32 bytes of the generator for a 256-bit key, encrypts the
    payload under it and returns the envelope together with the base64
    text of that key, which no other 32 bytes have. With a key that is
    a non-empty string [importKey] accepts, it encrypts under that key
    and returns the string as it came. The envelope is returned when
    it is within the number of arguments the engine takes, and
    whatever is returned is as described. *)
Theorem encryptPayload_optional_key (payload : json) (e : entropy) :
  let plaintext := Utf8.TextEncoder_encode (JSON_stringify payload) in
  let envelope (key : bytes) (e1 : entropy) :=
    (draw 12 e1).1 ++ (GCM_AE key (draw 12 e1).1 128 plaintext).1
                   ++ (GCM_AE key (draw 12 e1).1 128 plaintext).2 in
  let raw := (draw 32 e).1 in
  let e1 := (draw 32 e).2 in
  let fresh := Base64.btoa_bytes raw in
  (length raw = 32%nat
   /\ importKey fresh = Ok raw
   /\ (forall other, Base64.btoa_bytes other = fresh -> other = raw)
   /\ encryptPayload payload (Some []) e = encryptPayload payload None e
   /\ (N.of_nat (length (envelope raw e1)) <= argument_limit ->
       encryptPayload payload None e
       = (Ok {| encryptedData := Base64.btoa_bytes (envelope raw e1);
                encryptionKey := fresh |},
          (draw 12 e1).2))
   /\ (forall r e',
         encryptPayload payload None e = (Ok r, e') ->
         encryptionKey r = fresh
         /\ encryptedData r = Base64.btoa_bytes (envelope raw e1)))
  /\ (forall (base64Key : jsstring) (key : bytes),
         importKey base64Key = Ok key ->
         base64Key <> []
         /\ (N.of_nat (length (envelope key e)) <= argument_limit ->
             encryptPayload payload (Some base64Key) e
             = (Ok {| encryptedData := Base64.btoa_bytes (envelope key e);
                      encryptionKey := base64Key |},
                (draw 12 e).2))
         /\ (forall r e',
               encryptPayload payload (Some base64Key) e = (Ok r, e') ->
               encryptionKey r = base64Key
               /\ encryptedData r = Base64.btoa_bytes (envelope key e))).
Proof.
  cbv zeta. split.
  - pose proof (draw_length 32 e) as Hraw.
    pose proof (importKey_btoa _ Hraw) as Hk.
    split; [exact Hraw|]. split; [exact Hk|]. split; [|split; [|split]].
    + intros other H. pose proof (Base64Facts.atob_btoa other) as Ho.
      rewrite H, Base64Facts.atob_btoa in Ho. congruence.
    + apply encryptPayload_empty_key.
    + intros Hle. rewrite encryptPayload_without_key.
      now apply (encryptPayload_within payload _ _ _ Hk).
    + intros r e'. rewrite encryptPayload_without_key. intros H.
      now destruct (encryptPayload_returned payload _ _ _ e' r Hk H)
        as (_ & -> & -> & _).
  - intros base64Key key Hk. split; [|split].
    + intros ->. discriminate Hk.
    + intros Hle. now apply (encryptPayload_within payload _ _ e Hk).
    + intros r e' H.
      now destruct (encryptPayload_returned payload _ _ e e' r Hk H)
        as (_ & -> & -> & _).
Qed.

End Theorems.
End SymmetricCipher.

Module JsObjectFacts.
Import JsObject.

Lemma set_insert (name value : jsstring) (object : JsObject.t) :
  name <> proto -> set name value object = <[name := value]> object.
Proof. intros H. unfold set. now rewrite decide_False. Qed.

Lemma set_proto (value : jsstring) (object : JsObject.t) :
  set proto value object = object.
Proof. unfold set. now rewrite decide_True. Qed.

Lemma lookup_set (name value : jsstring) (object : JsObject.t) :
  name <> proto -> set name value object !! name = Some value.
Proof. intros H. rewrite set_insert by assumption. apply lookup_insert_eq. Qed.

Lemma lookup_set_ne (name other value : jsstring) (object : JsObject.t) :
  name <> other -> set name value object !! other = object !! other.
Proof.
  intros H. unfold set. destruct (decide (name = proto)); [reflexivity|].
  now apply lookup_insert_ne.
Qed.

(** Nothing is ever on file under [__proto__] that was not there. *)
Lemma lookup_set_proto (name value : jsstring) (object : JsObject.t) :
  set name value object !! proto = object !! proto.
Proof.
  unfold set. destruct (decide (name = proto)) as [|Hne]; [reflexivity|].
  now apply lookup_insert_ne.
Qed.

End JsObjectFacts.

Module EncryptionServiceFacts.
Import EncryptionUtil EncryptionUtilFacts EncryptionService.

Section Facts.

Context `{W : WebPlatform}.

(** A rejected request, an empty answer or an answer without session
    id or key: [encryptRequest] fails and nothing changes. *)
Lemma encryptRequest_no_session (payload : json) (payloadType : option jsstring)
    (reply : http_reply) (st : state) :
  match reply with
  | Response (Some d) =>
      JsString.truthy (PublicKeyData.sessionId d)
      && JsString.truthy (PublicKeyData.publicKey d) = false
  | _ => True
  end ->
  encryptRequest payload payloadType reply st = (Throw encrypt_failure, st).
Proof.
  intros H. unfold encryptRequest, getPublicKey, try_catch, bind.
  destruct reply as [|[d|]]; try reflexivity.
  destruct (JsString.truthy (PublicKeyData.sessionId d)),
    (JsString.truthy (PublicKeyData.publicKey d)); try discriminate; reflexivity.
Qed.

Lemma encryptRequest_run (payload : json) (payloadType : option jsstring)
    (d : PublicKeyData.t) (st : state) :
  JsString.truthy (PublicKeyData.sessionId d) = true ->
  JsString.truthy (PublicKeyData.publicKey d) = true ->
  let session :=
    {| SessionInfo.sessionId := PublicKeyData.sessionId d;
       SessionInfo.publicKey := PublicKeyData.publicKey d;
       SessionInfo.expiryTime := PublicKeyData.expiryTime d |} in
  let raw := (draw 32 (random st)).1 in
  let e1 := (draw 32 (random st)).2 in
  let aesKey := Base64.btoa_bytes raw in
  let iv := (draw 12 e1).1 in
  let e2 := (draw 12 e1).2 in
  let CT := GCM_AE raw iv 128 (Utf8.TextEncoder_encode (JSON_stringify payload)) in
  let seed := (draw 32 e2).1 in
  let e3 := (draw 32 e2).2 in
  let after (e : entropy) :=
    {| currentSession := Some session;
       aesKeyStore := JsObject.set (PublicKeyData.sessionId d) aesKey (aesKeyStore st);
       random := e |} in
  let failed := Throw encrypt_failure in
  encryptRequest payload payloadType (Response (Some d)) st
  = if N.of_nat (length (iv ++ CT.1 ++ CT.2)) <=? argument_limit then
      match importRSAPublicKeyFromBase64 (PublicKeyData.publicKey d) with
      | Ok rsaPublicKey =>
          match RSA_OAEP_SHA256 (material rsaPublicKey) seed
                  (Utf8.TextEncoder_encode aesKey) with
          | Some ct =>
              (Ok {| EncryptedRequest.sessionId := PublicKeyData.sessionId d;
                     EncryptedRequest.encryptedData :=
                       Base64.btoa_bytes (iv ++ CT.1 ++ CT.2);
                     EncryptedRequest.encryptedKey := Base64.btoa_bytes ct;
                     EncryptedRequest.payloadType := payloadType |},
               after e3)
          | None => (failed, after e3)
          end
      | Throw _ => (failed, after e2)
      end
    else (failed, after e2).
Proof.
  intros Hs Hp. cbv zeta.
  pose proof (draw_length 32 (random st)) as Hraw.
  pose proof (importKey_btoa _ Hraw) as Hk.
  unfold encryptRequest, getPublicKey.
  unfold try_catch at 1. unfold bind at 1. unfold try_catch at 1.
  rewrite Hs, Hp. cbn [negb orb].
  unfold bind at 1. unfold set_currentSession, ret at 1.
  cbv beta iota. cbn [SessionInfo.publicKey SessionInfo.sessionId].
  rewrite Hp. cbn [negb].
  unfold bind at 1. unfold with_random at 1.
  cbn [random]. rewrite generateEncryptionKey_run.
  cbv beta iota.
  unfold bind at 1. unfold update_aesKeyStore. cbv beta iota.
  cbn [currentSession aesKeyStore random].
  unfold bind at 1. unfold with_random at 1. cbn [random].
  rewrite (encryptPayload_run payload _ _ _ Hk). cbv zeta.
  destruct (_ <=? argument_limit); [|reflexivity].
  cbv beta iota.
  cbn [currentSession aesKeyStore random encryptedData].
  unfold bind at 1. unfold lift_result at 1.
  destruct (importRSAPublicKeyFromBase64 _) as [pk|err]; [|reflexivity].
  unfold bind at 1. unfold with_random at 1. cbn [random].
  unfold encryptWithRSA, try_catch, bind, encrypt_RSA_OAEP, bind, random_bytes.
  destruct (draw 32 (draw 12 _).2) as [seed e3]. cbn [fst snd].
  destruct (RSA_OAEP_SHA256 _ _ _) as [ct|]; reflexivity.
Qed.

(** A successful [encryptRequest] had a usable answer of the key
    endpoint. *)
Lemma encryptRequest_ok_reply (payload : json) (payloadType : option jsstring)
    (reply : http_reply) (st st' : state) (req : EncryptedRequest.t) :
  encryptRequest payload payloadType reply st = (Ok req, st') ->
  exists d, reply = Response (Some d)
            /\ JsString.truthy (PublicKeyData.sessionId d) = true
            /\ JsString.truthy (PublicKeyData.publicKey d) = true.
Proof.
  intros H.
  destruct reply as [|[d|]];
    try (rewrite encryptRequest_no_session in H by exact I; discriminate).
  destruct (JsString.truthy (PublicKeyData.sessionId d)) eqn:Hs;
    destruct (JsString.truthy (PublicKeyData.publicKey d)) eqn:Hp;
    try (rewrite encryptRequest_no_session in H by (now rewrite Hs, Hp);
         discriminate).
  eauto.
Qed.

(** What [Object.prototype] holds is truthy and is no key: its text
    has characters [atob] rejects. *)
Lemma inherited_is_no_key (name text : jsstring) :
  JsObject.inherited name = Some text ->
  JsString.truthy text = true /\ importKey text = Throw InvalidCharacterError.
Proof.
  unfold JsObject.inherited.
  destruct (decide (name = JsObject.proto)) as [_|_];
    [intros [= <-]; split; vm_compute; reflexivity|].
  destruct (decide (name = js "constructor")) as [_|_];
    [intros [= <-]; split; vm_compute; reflexivity|].
  destruct (bool_decide _) eqn:Hin; [|discriminate].
  apply bool_decide_eq_true in Hin. intros [= <-].
  repeat (apply elem_of_cons in Hin; destruct Hin as [->|Hin];
          [split; vm_compute; reflexivity|]).
  now apply elem_of_nil in Hin.
Qed.

(** A read of the key store finds the own property when there is one,
    and otherwise nothing that decrypts: the statement below has the
    same outcome for a name [Object.prototype] defines and for a name
    nobody defines. *)
Lemma decryptResponse_run (encryptedResponse : EncryptedResponse.t) (st : state) :
  let sessionId := EncryptedResponse.sessionId encryptedResponse in
  decryptResponse encryptedResponse st
  = match aesKeyStore st !! sessionId with
    | Some aesKey =>
        if JsString.truthy aesKey then
          match decryptPayload (EncryptedResponse.encryptedData encryptedResponse)
                  aesKey with
          | Ok v => (Ok v, with_store st (delete sessionId (aesKeyStore st)))
          | Throw _ => (Throw decrypt_failure, st)
          end
        else (Throw decrypt_failure, st)
    | None => (Throw decrypt_failure, st)
    end.
Proof.
  cbv zeta. unfold decryptResponse, try_catch, bind, read_aesKeyStore, JsObject.get.
  destruct (aesKeyStore st !! _) as [aesKey|].
  - destruct (JsString.truthy aesKey); [|reflexivity].
    unfold lift_result.
    destruct (decryptPayload _ aesKey); reflexivity.
  - destruct (JsObject.inherited _) as [text|] eqn:Hi; [|reflexivity].
    destruct (inherited_is_no_key _ _ Hi) as [-> Hkey].
    unfold lift_result, decryptPayload. now rewrite Hkey.
Qed.

Lemma decryptResponse_ok (encryptedResponse : EncryptedResponse.t)
    (st st' : state) (v : json) :
  decryptResponse encryptedResponse st = (Ok v, st') ->
  let sessionId := EncryptedResponse.sessionId encryptedResponse in
  exists aesKey,
    aesKeyStore st !! sessionId = Some aesKey
    /\ decryptPayload (EncryptedResponse.encryptedData encryptedResponse) aesKey = Ok v
    /\ st' = with_store st (delete sessionId (aesKeyStore st)).
Proof.
  rewrite decryptResponse_run. cbv zeta.
  destruct (aesKeyStore st !! _) as [aesKey|]; [|discriminate].
  destruct (JsString.truthy aesKey); [|discriminate].
  destruct (decryptPayload _ aesKey) eqn:Hd; [|discriminate].
  intros [= <- <-]. eauto.
Qed.

End Facts.
End EncryptionServiceFacts.

Module Session.
Import EncryptionUtil EncryptionUtilFacts EncryptionService EncryptionServiceFacts.

Section Theorems.

Context `{W : WebPlatform}.

(** C1 (what the code does). Whenever [encryptRequest] succeeds, the
    plaintext it hands to RSA-OAEP is the UTF-8 text of the base64
    encoding of the AES key, 44 bytes, and not the 32 raw bytes of the
    key: [encryptedKey] is the base64 of that ciphertext. The key is
    the one put on file for the session, unless the session is named
    [__proto__], a name under which nothing is stored. *)
Theorem encryptRequest_wraps_base64_text (payload : json)
    (payloadType : option jsstring) (reply : http_reply) (st st' : state)
    (req : EncryptedRequest.t) :
  encryptRequest payload payloadType reply st = (Ok req, st') ->
  exists (raw : bytes) (d : PublicKeyData.t) (rsaPublicKey : CryptoKey)
         (seed ct : bytes),
    let aesKey := Base64.btoa_bytes raw in
    let wrapped := Utf8.TextEncoder_encode aesKey in
    reply = Response (Some d)
    /\ raw = (draw 32 (random st)).1
    /\ importKey aesKey = Ok raw
    /\ (EncryptedRequest.sessionId req <> JsObject.proto ->
        aesKeyStore st' !! EncryptedRequest.sessionId req = Some aesKey)
    /\ importRSAPublicKeyFromBase64 (PublicKeyData.publicKey d) = Ok rsaPublicKey
    /\ RSA_OAEP_SHA256 (material rsaPublicKey) seed wrapped = Some ct
    /\ EncryptedRequest.encryptedKey req = Base64.btoa_bytes ct
    /\ length raw = 32%nat
    /\ length wrapped = 44%nat
    /\ wrapped <> raw.
Proof.
  intros H.
  destruct (encryptRequest_ok_reply _ _ _ _ _ _ H) as (d & -> & Hs & Hp).
  rewrite (encryptRequest_run payload payloadType d st Hs Hp) in H.
  cbv zeta in H.
  destruct (_ <=? argument_limit); [|discriminate].
  destruct (importRSAPublicKeyFromBase64 _) as [pk|] eqn:Hpk; [|discriminate].
  destruct (RSA_OAEP_SHA256 _ _ _) as [ct|] eqn:Hct; [|discriminate].
  apply pair_equal_spec in H. destruct H as [H <-]. injection H as <-.
  pose proof (draw_length 32 (random st)) as Hraw.
  assert (Hlen : length (Utf8.TextEncoder_encode
                           (Base64.btoa_bytes (draw 32 (random st)).1)) = 44%nat).
  { rewrite Utf8Facts.encode_btoa_length, Hraw. reflexivity. }
  eexists _, d, pk, _, ct. cbv zeta.
  repeat split; try eassumption; try reflexivity.
  - now apply importKey_btoa.
  - cbn [EncryptedRequest.sessionId aesKeyStore]. apply JsObjectFacts.lookup_set.
  - intros Heq. rewrite Heq in Hlen. lia.
Qed.

(** C2 (as the code has it). [decryptResponse] removes the session's
    key exactly when the decryption succeeds; when it fails, for
    whatever reason, the state, key store included, is unchanged. *)
Theorem decryptResponse_removes_key_on_success_only
    (encryptedResponse : EncryptedResponse.t) (st : state) :
  let sessionId := EncryptedResponse.sessionId encryptedResponse in
  match decryptResponse encryptedResponse st with
  | (Ok _, st') =>
      st' = with_store st (delete sessionId (aesKeyStore st))
      /\ aesKeyStore st' !! sessionId = None
  | (Throw _, st') => st' = st
  end.
Proof.
  cbv zeta. rewrite decryptResponse_run.
  destruct (aesKeyStore st !! _) as [aesKey|]; [|reflexivity].
  destruct (JsString.truthy aesKey); [|reflexivity].
  destruct (decryptPayload _ aesKey); [|reflexivity].
  split; [reflexivity|]. cbn [with_store aesKeyStore]. apply lookup_delete_eq.
Qed.

(** C3 (as the code has it). [decryptResponse] fails when no key is on
    file for the session and when [decryptPayload] fails, and every
    failure reaches the caller as the same
    [Error('Failed to decrypt response payload')]: the error of the
    key lookup and the error of the symmetric decryption are replaced,
    not propagated. *)
Theorem decryptResponse_failures_are_generic
    (encryptedResponse : EncryptedResponse.t) (st : state) :
  let sessionId := EncryptedResponse.sessionId encryptedResponse in
  let encryptedData := EncryptedResponse.encryptedData encryptedResponse in
  (aesKeyStore st !! sessionId = None ->
     decryptResponse encryptedResponse st = (Throw decrypt_failure, st))
  /\ (forall aesKey e,
        aesKeyStore st !! sessionId = Some aesKey ->
        decryptPayload encryptedData aesKey = Throw e ->
        decryptResponse encryptedResponse st = (Throw decrypt_failure, st))
  /\ (forall e st',
        decryptResponse encryptedResponse st = (Throw e, st') ->
        e = decrypt_failure).
Proof.
  cbv zeta. rewrite decryptResponse_run. repeat split.
  - now intros ->.
  - intros aesKey e -> ->. now destruct (JsString.truthy aesKey).
  - intros e st'.
    destruct (aesKeyStore st !! _) as [aesKey|]; [|congruence].
    destruct (JsString.truthy aesKey); [|congruence].
    destruct (decryptPayload _ aesKey); congruence.
Qed.

(** C5 (as the code has it). The key store is a map, so it holds at
    most one key per session id. When the key endpoint has answered
    with a session id and a public key, and the session id is not
    [__proto__], [encryptRequest] puts the freshly generated key under
    the session id whatever the store held there, and reports nothing:
    what it returns or throws is the same for every content of the
    store. *)
Theorem encryptRequest_overwrites_key (payload : json)
    (payloadType : option jsstring) (d : PublicKeyData.t) (st : state) :
  PublicKeyData.sessionId d <> [] ->
  PublicKeyData.publicKey d <> [] ->
  PublicKeyData.sessionId d <> JsObject.proto ->
  let sessionId := PublicKeyData.sessionId d in
  let fresh := Base64.btoa_bytes (draw 32 (random st)).1 in
  let st' := (encryptRequest payload payloadType (Response (Some d)) st).2 in
  aesKeyStore st' = <[sessionId := fresh]> (aesKeyStore st)
  /\ aesKeyStore st' !! sessionId = Some fresh
  /\ (forall m : gmap jsstring jsstring,
        (encryptRequest payload payloadType (Response (Some d)) (with_store st m)).1
        = (encryptRequest payload payloadType (Response (Some d)) st).1).
Proof.
  intros Hs Hp Hproto. cbv zeta.
  assert (Hs' : JsString.truthy (PublicKeyData.sessionId d) = true)
    by (now destruct (PublicKeyData.sessionId d)).
  assert (Hp' : JsString.truthy (PublicKeyData.publicKey d) = true)
    by (now destruct (PublicKeyData.publicKey d)).
  pose proof (fun m => encryptRequest_run payload payloadType d (with_store st m) Hs' Hp')
    as Hm.
  cbv zeta in Hm. cbn [with_store random aesKeyStore] in Hm.
  rewrite (encryptRequest_run payload payloadType d st Hs' Hp'). cbv zeta.
  split; [|split].
  - rewrite <- (JsObjectFacts.set_insert _ _ _ Hproto).
    destruct (_ <=? argument_limit); [|reflexivity].
    destruct (importRSAPublicKeyFromBase64 _) as [pk|]; [|reflexivity].
    destruct (RSA_OAEP_SHA256 _ _ _); reflexivity.
  - rewrite <- (JsObjectFacts.lookup_set _
                  (Base64.btoa_bytes (draw 32 (random st)).1) (aesKeyStore st) Hproto).
    destruct (_ <=? argument_limit); [|reflexivity].
    destruct (importRSAPublicKeyFromBase64 _) as [pk|]; [|reflexivity].
    destruct (RSA_OAEP_SHA256 _ _ _); reflexivity.
  - intros m. rewrite Hm.
    destruct (_ <=? argument_limit); [|reflexivity].
    destruct (importRSAPublicKeyFromBase64 _) as [pk|]; [|reflexivity].
    destruct (RSA_OAEP_SHA256 _ _ _); reflexivity.
Qed.

(** C9 (as the code has it). After a [decryptResponse] that succeeded
    for a session id, every further [decryptResponse] for that session
    id finds no key and fails, leaving the state as it is; the error
    the caller sees is the generic
    [Error('Failed to decrypt response payload')]. *)
Theorem decryptResponse_single_use (first second : EncryptedResponse.t)
    (st st' : state) (v : json) :
  decryptResponse first st = (Ok v, st') ->
  EncryptedResponse.sessionId second = EncryptedResponse.sessionId first ->
  aesKeyStore st' !! EncryptedResponse.sessionId first = None
  /\ decryptResponse second st' = (Throw decrypt_failure, st').
Proof.
  intros H Hsid.
  destruct (decryptResponse_ok _ _ _ _ H) as (aesKey & _ & _ & ->).
  assert (Hnone : aesKeyStore
                    (with_store st (delete (EncryptedResponse.sessionId first)
                                      (aesKeyStore st)))
                    !! EncryptedResponse.sessionId first = None)
    by apply lookup_delete_eq.
  split; [assumption|].
  rewrite decryptResponse_run. cbv zeta. now rewrite Hsid, Hnone.
Qed.

End Theorems.
End Session.

Module JsStringFacts.
Import JsString.

Lemma trim_start_keeps (c : N) (s : jsstring) :
  In c s -> is_js_whitespace c = false -> In c (trim_start s).
Proof.
  intros Hin Hc. induction s as [|d s IH]; [assumption|].
  cbn [trim_start]. destruct (is_js_whitespace d) eqn:Hd; [|assumption].
  destruct Hin as [->|Hin]; [congruence|auto].
Qed.

(** [trim] keeps every character that is not white space. *)
Lemma trim_keeps (c : N) (s : jsstring) :
  In c s -> is_js_whitespace c = false -> In c (trim s).
Proof.
  intros Hin Hc. unfold trim.
  rewrite <- in_rev. apply trim_start_keeps; [|assumption].
  rewrite <- in_rev. now apply trim_start_keeps.
Qed.

Lemma strip_prefix_app (p s : jsstring) : strip_prefix p (p ++ s) = Some s.
Proof.
  induction p as [|a p IH]; [reflexivity|].
  cbn [app strip_prefix]. now rewrite N.eqb_refl.
Qed.

Lemma replace_first_unfold (p s : jsstring) :
  replace_first p s
  = match strip_prefix p s with
    | Some rest => rest
    | None => match s with
              | [] => []
              | c :: s' => c :: replace_first p s'
              end
    end.
Proof. destruct s; reflexivity. Qed.

(** A pattern at the very start is the first occurrence. *)
Lemma replace_first_prefix (p s : jsstring) : replace_first p (p ++ s) = s.
Proof. now rewrite replace_first_unfold, strip_prefix_app. Qed.

(** A pattern is not found before the first occurrence of its first
    character. *)
Lemma replace_first_skip (a : N) (p body s : jsstring) :
  ~ In a body ->
  replace_first (a :: p) (body ++ (a :: p) ++ s) = body ++ s.
Proof.
  induction body as [|c body IH]; intros Hnot.
  - apply (replace_first_prefix (a :: p)).
  - rewrite replace_first_unfold. cbn [app strip_prefix].
    destruct (N.eqb_spec a c) as [->|_]; [exfalso; apply Hnot; now left|].
    cbn [app] in IH. rewrite IH; [reflexivity|].
    intros Hin. apply Hnot. now right.
Qed.

Lemma replace_first_absent (a : N) (p s : jsstring) :
  ~ In a s -> replace_first (a :: p) s = s.
Proof.
  induction s as [|c s IH]; intros Hnot; [reflexivity|].
  rewrite replace_first_unfold. cbn [strip_prefix].
  destruct (N.eqb_spec a c) as [->|_]; [exfalso; apply Hnot; now left|].
  rewrite IH; [reflexivity|]. intros Hin. apply Hnot. now right.
Qed.

Lemma remove_whitespace_app (s t : jsstring) :
  remove_whitespace (s ++ t) = remove_whitespace s ++ remove_whitespace t.
Proof. apply List.filter_app. Qed.

Lemma remove_whitespace_idem (s : jsstring) :
  remove_whitespace (remove_whitespace s) = remove_whitespace s.
Proof.
  unfold remove_whitespace. induction s as [|c s IH]; [reflexivity|].
  cbn [List.filter]. destruct (is_js_whitespace c) eqn:Hc; cbn [negb]; [assumption|].
  cbn [List.filter]. rewrite Hc. cbn [negb]. now rewrite IH.
Qed.

Lemma remove_whitespace_In (c : N) (s : jsstring) :
  In c (remove_whitespace s) -> In c s.
Proof. unfold remove_whitespace. rewrite List.filter_In. tauto. Qed.

End JsStringFacts.

Module Base64Rejects.
Import Base64.

Lemma sextets_none (c : N) (s : jsstring) :
  In c s -> b64_value c = None -> sextets s = None.
Proof.
  intros Hin Hc. induction s as [|d s IH]; [contradiction|].
  cbn [sextets]. destruct Hin as [->|Hin].
  - now rewrite Hc.
  - rewrite (IH Hin). now destruct (b64_value d).
Qed.

Lemma drop_final_pad_keeps (c : N) (s : jsstring) :
  In c s -> c <> pad -> In c (drop_final_pad s).
Proof.
  intros Hin Hc. revert Hin.
  assert (H : forall s, (In c s -> In c (drop_final_pad s))
                        /\ (forall d, In c (d :: s) -> In c (drop_final_pad (d :: s)))).
  { clear s. induction s as [|x s [IH0 IH1]].
    - split; [auto|]. intros d [->|[]]. cbn.
      destruct (N.eqb_spec c pad); [contradiction|now left].
    - split; [apply IH1|].
      intros d Hin. destruct s as [|y s].
      + cbn [drop_final_pad].
        destruct (N.eqb_spec x pad) as [->|_].
        * destruct Hin as [->|[Hx|[]]]; [|congruence].
          destruct (N.eqb_spec c pad); [contradiction|now left].
        * assumption.
      + change (drop_final_pad (d :: x :: y :: s))
          with (d :: drop_final_pad (x :: y :: s)).
        destruct Hin as [->|Hin]; [now left|right; auto]. }
  apply H.
Qed.

(** A character outside the alphabet that is neither white space nor
    [=] makes [atob] throw. *)
Lemma atob_invalid_character (c : N) (s : jsstring) :
  In c s -> is_ascii_whitespace c = false -> c <> pad -> b64_value c = None ->
  atob_bytes s = Throw InvalidCharacterError.
Proof.
  intros Hin Hws Hpad Hval. unfold atob_bytes.
  set (data := strip_padding _).
  assert (Hdata : In c data).
  { unfold data, strip_padding.
    assert (Hf : In c (List.filter (fun c => negb (is_ascii_whitespace c)) s))
      by (apply List.filter_In; now rewrite Hws).
    destruct (_ =? 0); [now apply drop_final_pad_keeps|assumption]. }
  destruct (_ =? 1); [reflexivity|].
  now rewrite (sextets_none c data Hdata Hval).
Qed.

End Base64Rejects.

Module KeyWrapper.
Import EncryptionService RsaEncryptionUtil.

Section Theorems.

Context `{W : WebPlatform}.

(** [importRSAPublicKeyFromBase64] only trims its argument: a string
    with a hyphen in it does not decode. *)
Lemma importRSAPublicKeyFromBase64_hyphen (base64Key : jsstring) :
  In JsString.hyphen base64Key ->
  importRSAPublicKeyFromBase64 base64Key = Throw import_failure.
Proof.
  intros Hin. unfold importRSAPublicKeyFromBase64.
  destruct (_ || _); [reflexivity|].
  rewrite (Base64Rejects.atob_invalid_character JsString.hyphen); try reflexivity.
  - now apply JsStringFacts.trim_keeps.
  - discriminate.
Qed.

(** C8 (what the code does). The import that [encryptRequest] uses
    rejects every string that starts with the PEM header: it removes
    no header and no footer, and [atob] throws at the hyphens. *)
Theorem importRSAPublicKeyFromBase64_rejects_pem (rest : jsstring) :
  importRSAPublicKeyFromBase64 (pemHeader ++ rest) = Throw import_failure.
Proof. apply importRSAPublicKeyFromBase64_hyphen. now left. Qed.

(** The import of [rsaEncryptionUtil.ts] does remove them: a key
    between PEM header and footer, with any white space inside and
    after, is imported as the same key without header, footer and
    white space is. *)
Lemma importPublicKey_pem (body tail : jsstring) :
  ~ In JsString.hyphen body ->
  JsString.remove_whitespace tail = [] ->
  importPublicKey (pemHeader ++ body ++ pemFooter ++ tail)
  = importPublicKey (JsString.remove_whitespace body).
Proof.
  intros Hbody Htail. unfold importPublicKey.
  rewrite JsStringFacts.replace_first_prefix.
  assert (Hh : pemHeader = JsString.hyphen :: tl pemHeader) by reflexivity.
  assert (Hf : pemFooter = JsString.hyphen :: tl pemFooter) by reflexivity.
  rewrite Hh, Hf.
  rewrite (JsStringFacts.replace_first_skip JsString.hyphen) by assumption.
  rewrite JsStringFacts.remove_whitespace_app, Htail, app_nil_r.
  assert (Hclean : ~ In JsString.hyphen (JsString.remove_whitespace body))
    by (intros H; apply Hbody; now apply JsStringFacts.remove_whitespace_In).
  rewrite (JsStringFacts.replace_first_absent JsString.hyphen (tl pemHeader)
             (JsString.remove_whitespace body)) by assumption.
  rewrite (JsStringFacts.replace_first_absent JsString.hyphen (tl pemFooter)) by assumption.
  now rewrite JsStringFacts.remove_whitespace_idem.
Qed.

(** The wrapping of [rsaEncryptionUtil.ts] decodes the key first and
    hands its raw bytes to RSA-OAEP. *)
Lemma encryptAESKey_wraps_raw_bytes (raw : bytes) (base64PublicKey : jsstring)
    (e : entropy) :
  let failed := Throw (Error (js "Failed to encrypt AES key with RSA")) in
  encryptAESKey (Base64.btoa_bytes raw) base64PublicKey e
  = match importPublicKey base64PublicKey with
    | Ok publicKey =>
        match RSA_OAEP_SHA256 (material publicKey) (draw 32 e).1 raw with
        | Some ct => (Ok (Base64.btoa_bytes ct), (draw 32 e).2)
        | None => (failed, (draw 32 e).2)
        end
    | Throw _ => (failed, e)
    end.
Proof.
  cbv zeta. unfold encryptAESKey, try_catch at 1. unfold bind at 1.
  unfold lift_result at 1. rewrite Base64Facts.atob_btoa.
  unfold encryptWithPublicKey, try_catch, bind, lift_result.
  destruct (importPublicKey base64PublicKey) as [pk|]; [|reflexivity].
  unfold encrypt_RSA_OAEP, bind, random_bytes.
  destruct (draw 32 e) as [seed e']. cbn [fst snd].
  destruct (RSA_OAEP_SHA256 _ _ _); reflexivity.
Qed.

End Theorems.
End KeyWrapper.

(** ** The small platform has the assumed properties *)

Module MockFacts.
Import Mock.

Lemma tag_length (key iv C : bytes) (t : nat) :
  length (tag key iv C t) = (t / 8)%nat.
Proof.
  unfold tag. rewrite length_firstn. cbn [length].
  rewrite !length_app, repeat_length. lia.
Qed.

Lemma gcm_tag_length_bytes (t : nat) : gcm_tag_length t -> (8 * (t / 8))%nat = t.
Proof.
  unfold gcm_tag_length. cbn [In].
  intros [<-|[<-|[<-|[<-|[<-|[<-|[<-|[]]]]]]]]; reflexivity.
Qed.

Lemma GCM_lengths_holds : GCM_lengths platform.
Proof.
  intros key iv t P _ _ _. cbn [GCM_AE platform AE fst snd].
  split; [apply length_rev|apply tag_length].
Qed.

Lemma GCM_inverse_holds : GCM_inverse platform.
Proof.
  intros key iv t P _ _ Ht. cbn [GCM_AE GCM_AD platform AE fst snd]. unfold AD.
  rewrite tag_length, (gcm_tag_length_bytes t Ht).
  rewrite decide_True by reflexivity. now rewrite rev_involutive.
Qed.

Lemma letters_length (n : nat) : length (stringify (VLetters n)) = (n + 2)%nat.
Proof. cbn [stringify length]. rewrite length_app, repeat_length. cbn. lia. Qed.

Lemma letters_ascii (n : nat) : Forall (fun c => c < 128) (stringify (VLetters n)).
Proof.
  cbn [stringify]. constructor; [lia|]. apply Forall_app. split.
  - induction n; cbn [repeat]; constructor; [lia|assumption].
  - repeat constructor.
Qed.

Lemma to_N_byte_of_N (c : N) : c < 256 -> Byte.to_N (byte_of_N c) = c.
Proof.
  intros Hc. unfold byte_of_N. rewrite N.mod_small by assumption.
  destruct (Byte.of_N c) as [b|] eqn:Hb.
  - now apply Byte.to_of_N.
  - apply Byte.of_N_None_iff in Hb. lia.
Qed.

Lemma decode_encode_ascii (s : jsstring) :
  Forall (fun c => c < 128) s -> decode (Utf8.TextEncoder_encode s) = s.
Proof.
  intros H. rewrite (Utf8Facts.encode_ascii s H). unfold decode.
  induction H as [|c s Hc _ IH]; [reflexivity|].
  cbn [map]. rewrite IH, to_N_byte_of_N by lia. reflexivity.
Qed.

Lemma JSON_round_trip_holds : JSON_round_trip platform.
Proof.
  intros [| | |n]; try reflexivity.
  cbn [JSON_parse JSON_stringify platform stringify]. unfold parse.
  rewrite !decide_False by (intros H; discriminate H).
  rewrite length_app, repeat_length. cbn [length].
  replace (n + 1 - 1)%nat with n by lia.
  now rewrite decide_True.
Qed.

Lemma UTF8_round_trip_holds : UTF8_round_trip platform.
Proof.
  intros [| | |n]; try reflexivity.
  apply decode_encode_ascii, letters_ascii.
Qed.

(** The UTF-8 JSON text of [VLetters n] has [n + 2] bytes. *)
Lemma letters_encoded_length (n : nat) :
  length (Utf8.TextEncoder_encode (JSON_stringify (VLetters n))) = (n + 2)%nat.
Proof.
  cbn [JSON_stringify platform].
  rewrite (Utf8Facts.encode_ascii _ (letters_ascii n)), length_map.
  apply letters_length.
Qed.

End MockFacts.

(** ** Runs of the model *)

Module Runs.
Import Mock MockFacts EncryptionUtil EncryptionService.

Lemma pending_key : aesKeyStore pending !! sid1 = Some key1.
Proof. vm_compute. reflexivity. Qed.

Lemma echoed_decrypts :
  decryptResponse echoed pending
  = (Ok VTrue, with_store pending (delete sid1 (aesKeyStore pending))).
Proof. vm_compute. reflexivity. Qed.

Lemma start_run : encryptRequest VTrue None reply1 start = (Ok request1, pending).
Proof. vm_compute. reflexivity. Qed.

Lemma key1_imports : importKey key1 = Ok (draw 32 dice).1.
Proof. vm_compute. reflexivity. Qed.

(** Witness of C1: the run on [start]. *)
Lemma encryptRequest_wraps_base64_text_run :
  encryptRequest VTrue None reply1 start = (Ok request1, pending)
  /\ exists (raw : bytes) (d : PublicKeyData.t) (rsaPublicKey : CryptoKey)
            (seed ct : bytes),
       let aesKey := Base64.btoa_bytes raw in
       let wrapped := Utf8.TextEncoder_encode aesKey in
       reply1 = Response (Some d)
       /\ raw = (draw 32 (random start)).1
       /\ importKey aesKey = Ok raw
       /\ (EncryptedRequest.sessionId request1 <> JsObject.proto ->
           aesKeyStore pending !! EncryptedRequest.sessionId request1 = Some aesKey)
       /\ importRSAPublicKeyFromBase64 (PublicKeyData.publicKey d) = Ok rsaPublicKey
       /\ RSA_OAEP_SHA256 (material rsaPublicKey) seed wrapped = Some ct
       /\ EncryptedRequest.encryptedKey request1 = Base64.btoa_bytes ct
       /\ length raw = 32%nat
       /\ length wrapped = 44%nat
       /\ wrapped <> raw.
Proof.
  split; [exact start_run|].
  exact (Session.encryptRequest_wraps_base64_text VTrue None reply1 start pending
           request1 start_run).
Defined.

(** What RSA-OAEP was given in that run, read off the stand-in's
    output: the 32-byte seed, then the 44 characters of the base64
    text of the key. *)
Lemma wrapped_plaintext_of_run :
  Base64.atob_bytes (EncryptedRequest.encryptedKey request1)
  = Ok ((draw 32 (draw 12 (draw 32 dice).2).2).1 ++ Utf8.TextEncoder_encode key1)
  /\ Utf8.TextEncoder_encode key1 = map byte_of_N key1
  /\ Utf8.TextEncoder_encode key1 <> (draw 32 dice).1.
Proof. vm_compute. repeat split. discriminate. Qed.

(** Counterexample to C2: the tag of [tampered] does not verify,
    [decryptResponse] fails, and the key of [session-1] is still in
    the store. *)
Lemma decryptResponse_failure_keeps_key :
  aesKeyStore pending !! sid1 = Some key1
  /\ (decryptResponse tampered pending).1 = Throw decrypt_failure
  /\ aesKeyStore (decryptResponse tampered pending).2 !! sid1 = Some key1.
Proof. vm_compute. repeat split. Qed.

(** Counterexample to C3: a response for an unknown session and a
    response that fails authentication throw the same error, and it is
    neither the error of the lookup nor the error of [decryptPayload]. *)
Lemma decryptResponse_failures_look_alike :
  aesKeyStore pending !! EncryptedResponse.sessionId stray = None
  /\ decryptPayload (EncryptedResponse.encryptedData tampered) key1
     = Throw decryption_failed
  /\ (decryptResponse stray pending).1 = (decryptResponse tampered pending).1
  /\ (decryptResponse stray pending).1
     <> Throw (unknown_session (EncryptedResponse.sessionId stray))
  /\ (decryptResponse tampered pending).1 <> Throw (A:=json) decryption_failed.
Proof. vm_compute. repeat split; discriminate. Qed.

(** Witness of C3. *)
Lemma decryptResponse_failures_are_generic_run :
  decryptResponse stray pending = (Throw decrypt_failure, pending)
  /\ decryptResponse tampered pending = (Throw decrypt_failure, pending).
Proof.
  split.
  - apply (Session.decryptResponse_failures_are_generic stray pending).
    vm_compute. reflexivity.
  - apply (proj1 (proj2 (Session.decryptResponse_failures_are_generic
                           tampered pending)) key1 decryption_failed);
      vm_compute; reflexivity.
Defined.

(** Counterexample to C4: under one key, an envelope whose tag does
    not verify and an envelope whose tag verifies but whose plaintext
    is not JSON make [decryptPayload] throw the same error. *)
Lemma authentication_and_JSON_failures_look_alike :
  let raw := (draw 32 dice).1 in
  GCM_AD raw (repeat x00 12) (repeat x00 8) (repeat x00 16) = None
  /\ Base64.atob_bytes (EncryptedResponse.encryptedData tampered)
     = Ok (repeat x00 12 ++ repeat x00 8 ++ repeat x00 16)
  /\ (exists P,
        decrypt_AES_GCM raw (repeat x01 12) 128
          (skipn 12 (match Base64.atob_bytes not_json with
                     | Ok b => b
                     | Throw _ => []
                     end)) = Ok P
        /\ JSON_parse (TextDecoder_decode P) = None)
  /\ decryptPayload (EncryptedResponse.encryptedData tampered) key1
     = decryptPayload not_json key1.
Proof.
  vm_compute. repeat split. eexists. split; reflexivity.
Qed.

(** Witness of C4: the tampered envelope. *)
Lemma decryptPayload_failures_coincide_run :
  decryptPayload (EncryptedResponse.encryptedData tampered) key1
  = Throw decryption_failed.
Proof.
  refine (proj1 (proj2 (SymmetricCipher.decryptPayload_failures_coincide
                          (EncryptedResponse.encryptedData tampered) key1
                          (draw 32 dice).1 (repeat x00 36) _ _)) _);
    vm_compute; reflexivity.
Defined.

(** Counterexample to C5: [session-1] has a key on file, the key
    endpoint answers with [session-1] again, and [encryptRequest] puts
    another key in its place; it returns what it returns on an empty
    store, a request and no error. *)
Lemma encryptRequest_replaces_live_key :
  let again := encryptRequest VFalse None (Response (Some answer1)) in
  aesKeyStore occupied !! sid1 = Some older
  /\ aesKeyStore (again occupied).2 !! sid1 = Some newer
  /\ newer <> older
  /\ (again occupied).1 = (again (with_store occupied ∅)).1
  /\ (again occupied).1 <> Throw encrypt_failure.
Proof. vm_compute. repeat split; discriminate. Qed.

(** Witness of C5: the same call. *)
Lemma encryptRequest_overwrites_key_run :
  let again := encryptRequest VFalse None (Response (Some answer1)) in
  let fresh := Base64.btoa_bytes (draw 32 (random occupied)).1 in
  aesKeyStore (again occupied).2 = <[sid1 := fresh]> (aesKeyStore occupied)
  /\ aesKeyStore (again occupied).2 !! sid1 = Some fresh
  /\ (forall m : gmap jsstring jsstring,
        (again (with_store occupied m)).1 = (again occupied).1).
Proof.
  refine (Session.encryptRequest_overwrites_key (W:=platform) VFalse None answer1
            occupied _ _ _); vm_compute; discriminate.
Defined.

(** Counterexample to C9: the second [decryptResponse] for
    [session-1] fails, but what it throws is not the error that says
    the session is unknown. *)
Lemma second_decryptResponse_error :
  (decryptResponse echoed pending).1 = Ok VTrue
  /\ (decryptResponse echoed (decryptResponse echoed pending).2).1
     = Throw decrypt_failure
  /\ (decryptResponse echoed (decryptResponse echoed pending).2).1
     <> Throw (unknown_session sid1).
Proof. vm_compute. repeat split. discriminate. Qed.

(** Witness of C9. *)
Lemma decryptResponse_single_use_run :
  let st' := with_store pending (delete sid1 (aesKeyStore pending)) in
  aesKeyStore st' !! EncryptedResponse.sessionId echoed = None
  /\ decryptResponse echoed st' = (Throw decrypt_failure, st').
Proof.
  exact (Session.decryptResponse_single_use echoed echoed pending _ VTrue
           echoed_decrypts eq_refl).
Defined.

(** Witness of C6: the payload [false]. *)
Lemma encrypt_decrypt_round_trip_run :
  exists key e1,
    generateEncryptionKey dice = (Ok key, e1) /\
    exists envelope e',
      encryptPayload VFalse (Some key) (draw 32 dice).2
      = (Ok {| encryptedData := envelope; encryptionKey := key |}, e')
      /\ decryptPayload envelope key = Ok VFalse.
Proof.
  destruct (SymmetricCipher.encrypt_decrypt_round_trip (W:=platform) VFalse dice
              (draw 32 dice).2 GCM_lengths_holds GCM_inverse_holds
              JSON_round_trip_holds UTF8_round_trip_holds)
    as (key & e1 & Hkey & Hwithin & _).
  exists key, e1. split; [exact Hkey|]. apply Hwithin. vm_compute. discriminate.
Defined.

(** The envelope of [large] has 200028 bytes. *)
Lemma large_envelope (key iv : bytes) :
  aes_key_length key -> length iv = 12%nat ->
  let CT := GCM_AE key iv 128 (Utf8.TextEncoder_encode (JSON_stringify large)) in
  N.of_nat (length (iv ++ CT.1 ++ CT.2)) = 200028.
Proof.
  intros Hkey Hiv. cbv zeta.
  rewrite (EncryptionUtilFacts.envelope_length key iv _ GCM_lengths_holds Hkey Hiv).
  unfold large. rewrite letters_encoded_length. lia.
Qed.

(** The failing input of C6: a payload whose JSON text has 200000
    characters, in an engine that takes 65536 arguments.
    [encryptPayload] throws, with a key given and without, and no
    envelope exists to decrypt. *)
Lemma large_payload_is_refused :
  length (JSON_stringify large) = N.to_nat 200000
  /\ argument_limit = 65536
  /\ encryptPayload large (Some key1) dice
     = (Throw (Error (js "Failed to encrypt payload")), (draw 12 dice).2)
  /\ encryptPayload large None dice
     = (Throw (Error (js "Failed to encrypt payload")), (draw 12 (draw 32 dice).2).2).
Proof.
  assert (Hkey : aes_key_length (draw 32 dice).1)
    by (unfold aes_key_length; right; right; apply draw_length).
  split; [|split; [reflexivity|split]].
  - cbn [JSON_stringify platform]. unfold large. rewrite letters_length. lia.
  - apply (EncryptionUtilFacts.encryptPayload_beyond (W:=platform) large key1 _ dice
             key1_imports).
    rewrite large_envelope by (assumption || apply draw_length).
    cbn [argument_limit platform]. lia.
  - rewrite SymmetricCipher.encryptPayload_without_key.
    apply (EncryptionUtilFacts.encryptPayload_beyond (W:=platform) large _ _ _
             key1_imports).
    rewrite large_envelope by (assumption || apply draw_length).
    cbn [argument_limit platform]. lia.
Qed.

(** Witness of C7: the payload [null] under the key of 32 bytes [x07]. *)
Lemma envelope_and_key_format_run :
  let raw := repeat x07 32 in
  let plaintext := Utf8.TextEncoder_encode (JSON_stringify VNull) in
  exists r e' iv C T,
    encryptPayload VNull (Some (Base64.btoa_bytes raw)) dice = (Ok r, e')
    /\ encryptedData r = Base64.btoa_bytes (iv ++ C ++ T)
    /\ (iv, e') = draw 12 dice
    /\ (C, T) = GCM_AE raw iv 128 plaintext
    /\ length iv = 12%nat
    /\ length C = length plaintext
    /\ length T = 16%nat
    /\ length (iv ++ C ++ T) = (12 + length plaintext + 16)%nat.
Proof.
  destruct (SymmetricCipher.envelope_and_key_format (W:=platform) VNull
              (repeat x07 32) dice GCM_lengths_holds eq_refl)
    as (Hformat & Hreturns & _).
  destruct Hreturns as (r & e' & Hrun); [vm_compute; discriminate|].
  destruct (Hformat r e' Hrun)
    as (iv & C & T & Hdata & _ & _ & Hdraw & HCT & _ & Hiv & HC & HT & Hall).
  exists r, e', iv, C, T. repeat split; assumption.
Defined.

(** Witness of C10: a call with [key1]. *)
Lemma encryptPayload_optional_key_run :
  exists envelope,
    encryptPayload VTrue (Some key1) dice
    = (Ok {| encryptedData := envelope; encryptionKey := key1 |}, (draw 12 dice).2).
Proof.
  destruct (proj2 (SymmetricCipher.encryptPayload_optional_key (W:=platform) VTrue dice)
              key1 (draw 32 dice).1 key1_imports) as (_ & Hwithin & _).
  eexists. apply Hwithin. vm_compute. discriminate.
Defined.

(** Counterexample to C10: called with the empty string for a key,
    [encryptPayload] returns, and the key it returns is not the one
    supplied. *)
Lemma empty_key_is_replaced :
  exists r e',
    encryptPayload VTrue (Some []) dice = (Ok r, e')
    /\ encryptionKey r = key1
    /\ encryptionKey r <> [].
Proof. vm_compute. eexists _, _. repeat split. discriminate. Qed.

(** Failing input of C8: a key the import accepts as base64 is
    rejected between PEM delimiters, and accepted so by the import of
    [rsaEncryptionUtil.ts]. *)
Lemma pem_wrapped_key_run :
  let pem := RsaEncryptionUtil.pemHeader ++ js "
MIIB
" ++ RsaEncryptionUtil.pemFooter ++ js "
" in
  importRSAPublicKeyFromBase64 (js "MIIB")
  = Ok {| material := [x30; x82; x01]; extractable := true |}
  /\ importRSAPublicKeyFromBase64 pem = Throw import_failure
  /\ RsaEncryptionUtil.importPublicKey pem
     = Ok {| material := [x30; x82; x01]; extractable := false |}
  /\ RsaEncryptionUtil.importPublicKey (js "MIIB")
     = Ok {| material := [x30; x82; x01]; extractable := false |}.
Proof. vm_compute. repeat split. Qed.

End Runs.

(** * Further properties of the code *)

Module Base64More.
Import Base64 Base64Facts.

(** [atob] reads a text through its characters that are not white
    space. *)
Lemma atob_without_whitespace (s : jsstring) :
  atob_bytes (List.filter (fun c => negb (is_ascii_whitespace c)) s) = atob_bytes s.
Proof.
  unfold atob_bytes.
  assert (H : forall l : jsstring,
             List.filter (fun c => negb (is_ascii_whitespace c))
               (List.filter (fun c => negb (is_ascii_whitespace c)) l)
             = List.filter (fun c => negb (is_ascii_whitespace c)) l).
  { induction l as [|c l IH]; [reflexivity|]. cbn [List.filter].
    destruct (negb (is_ascii_whitespace c)) eqn:Hc; [|assumption].
    cbn [List.filter]. now rewrite Hc, IH. }
  now rewrite H.
Qed.

Lemma atob_same_text (s t : jsstring) :
  List.filter (fun c => negb (is_ascii_whitespace c)) s
  = List.filter (fun c => negb (is_ascii_whitespace c)) t ->
  atob_bytes s = atob_bytes t.
Proof.
  intros H. rewrite <- (atob_without_whitespace s), H.
  apply atob_without_whitespace.
Qed.

Lemma unpadded_chars (bs : bytes) :
  Forall (fun c => exists n, c = b64_char n) (unpadded bs).
Proof.
  induction bs as [| a | a b | a b c l IH] using list_ind3;
    cbn [unpadded]; repeat constructor; eauto.
Qed.

Lemma drop_final_pad_chars (s : jsstring) :
  Forall (fun c => exists n, c = b64_char n) s -> drop_final_pad s = s.
Proof.
  induction 1 as [|c s [n ->] _ IH]; [reflexivity|].
  rewrite drop_final_pad_cons by apply b64_char_not_pad. now rewrite IH.
Qed.

Lemma filter_chars (s : jsstring) :
  Forall (fun c => exists n, c = b64_char n) s ->
  List.filter (fun c => negb (is_ascii_whitespace c)) s = s.
Proof.
  induction 1 as [|c s [n ->] _ IH]; [reflexivity|].
  cbn [List.filter]. rewrite b64_char_not_whitespace. cbn [negb]. now rewrite IH.
Qed.

(** [atob] does not ask for the padding. *)
Lemma atob_unpadded (bs : bytes) : atob_bytes (unpadded bs) = Ok bs.
Proof.
  unfold atob_bytes. rewrite (filter_chars _ (unpadded_chars bs)).
  assert (Hs : strip_padding (unpadded bs) = unpadded bs).
  { unfold strip_padding. rewrite (drop_final_pad_chars _ (unpadded_chars bs)).
    now destruct (_ =? 0). }
  rewrite Hs, unpadded_length_mod.
  destruct (sextets_unpadded bs) as (vs & -> & ->). reflexivity.
Qed.

(** The text of [btoa] is the unpadded text and then only [=]. *)
Lemma btoa_unpadded (bs : bytes) :
  exists k, btoa_bytes bs = unpadded bs ++ repeat pad k.
Proof.
  induction bs as [| a | a b | a b c l [k IH]] using list_ind3; cbn [btoa_bytes unpadded].
  - now exists 0%nat.
  - now exists 2%nat.
  - now exists 1%nat.
  - exists k. now rewrite IH.
Qed.

Lemma unpadded_length (bs : bytes) : (length bs <= length (unpadded bs))%nat.
Proof.
  induction bs as [| a | a b | a b c l IH] using list_ind3;
    cbn [unpadded length]; lia.
Qed.

(** [btoa] is one to one. *)
Lemma btoa_injective (a b : bytes) : btoa_bytes a = btoa_bytes b -> a = b.
Proof.
  intros H. pose proof (atob_btoa a) as Ha. rewrite H, atob_btoa in Ha. congruence.
Qed.

End Base64More.

Module CipherMore.
Import EncryptionUtil EncryptionUtilFacts.

Section Theorems.

Context `{W : WebPlatform}.

Lemma importKey_length (base64Key : jsstring) (key : bytes) :
  importKey base64Key = Ok key -> aes_key_length key.
Proof.
  unfold importKey, aes_key_length.
  destruct (Base64.atob_bytes base64Key) as [keyData|]; [|discriminate].
  cbn [result_bind]. unfold importKey_raw.
  destruct (Nat.eqb_spec (length keyData) 16) as [H16|_];
    [intros [= <-]; auto|].
  destruct (Nat.eqb_spec (length keyData) 24) as [H24|_];
    [intros [= <-]; auto|].
  destruct (Nat.eqb_spec (length keyData) 32) as [H32|_];
    [intros [= <-]; auto|].
  discriminate.
Qed.

(** X1. [generateEncryptionKey] always returns; it reads 32 bytes of
    randomness and returns their base64 text, 44 characters that
    [importKey] takes back as those 32 bytes. *)
Theorem generated_key_imports (e : entropy) :
  exists key raw,
    generateEncryptionKey e = (Ok key, (draw 32 e).2)
    /\ raw = (draw 32 e).1
    /\ length key = 44%nat
    /\ JsString.truthy key = true
    /\ importKey key = Ok raw
    /\ length raw = 32%nat.
Proof.
  pose proof (draw_length 32 e) as Hraw.
  exists (Base64.btoa_bytes (draw 32 e).1), (draw 32 e).1.
  split; [apply generateEncryptionKey_run|]. split; [reflexivity|].
  split; [now rewrite Base64Facts.btoa_length, Hraw|].
  split; [|split; [now apply importKey_btoa|assumption]].
  apply btoa_truthy. intros H0. now rewrite H0 in Hraw.
Qed.

(** Decrypting the envelope that encryption under an imported key
    builds around an IV of 12 bytes. *)
Lemma decrypt_built_envelope (payload : json) (base64Key : jsstring)
    (key iv : bytes) :
  GCM_lengths W -> GCM_inverse W -> JSON_round_trip W -> UTF8_round_trip W ->
  importKey base64Key = Ok key ->
  length iv = 12%nat ->
  let CT := GCM_AE key iv 128 (Utf8.TextEncoder_encode (JSON_stringify payload)) in
  decryptPayload (Base64.btoa_bytes (iv ++ CT.1 ++ CT.2)) base64Key = Ok payload.
Proof.
  intros Hlen Hinv Hjson Hutf Hk Hiv. cbv zeta.
  pose proof (importKey_length _ _ Hk) as Hkey.
  assert (Hne : iv <> []) by (intros H0; now rewrite H0 in Hiv).
  destruct (Hlen key iv 128%nat
              (Utf8.TextEncoder_encode (JSON_stringify payload)) Hkey Hne
              tagLength_is_gcm) as [_ HT].
  change (128 / 8)%nat with 16%nat in HT.
  rewrite (SymmetricCipher.decryptPayload_envelope _ key) by assumption.
  rewrite Hinv by (assumption || apply tagLength_is_gcm). now rewrite Hutf, Hjson.
Qed.

(** Encrypting under a key that imports, then decrypting, when the
    envelope is within the number of arguments the engine takes. *)
Lemma encrypt_then_decrypt (payload : json) (base64Key : jsstring)
    (key : bytes) (e : entropy) :
  GCM_lengths W -> GCM_inverse W -> JSON_round_trip W -> UTF8_round_trip W ->
  importKey base64Key = Ok key ->
  N.of_nat (12 + length (Utf8.TextEncoder_encode (JSON_stringify payload)) + 16)
  <= argument_limit ->
  exists envelope,
    encryptPayload payload (Some base64Key) e
    = (Ok {| encryptedData := envelope; encryptionKey := base64Key |}, (draw 12 e).2)
    /\ decryptPayload envelope base64Key = Ok payload.
Proof.
  intros Hlen Hinv Hjson Hutf Hk Hsize.
  pose proof (envelope_length key (draw 12 e).1
                (Utf8.TextEncoder_encode (JSON_stringify payload)) Hlen
                (importKey_length _ _ Hk) (draw_length 12 e)) as Hall.
  cbv zeta in Hall.
  eexists. split.
  - apply (encryptPayload_within payload _ _ e Hk). now rewrite Hall.
  - apply (decrypt_built_envelope payload base64Key key _ Hlen Hinv Hjson Hutf Hk).
    apply draw_length.
Qed.

(** X2. Round trip under every key [importKey] accepts, of 128, 192
    or 256 bits, padded or not, for a payload whose envelope of
    12 + N + 16 bytes is within the number of arguments the engine
    takes: [encryptPayload] succeeds, returns the key as given, reads
    12 bytes of randomness, and [decryptPayload] of its envelope under
    that key gives the payload back. *)
Theorem round_trip_under_imported_key (payload : json) (base64Key : jsstring)
    (key : bytes) (e : entropy) :
  GCM_lengths W -> GCM_inverse W -> JSON_round_trip W -> UTF8_round_trip W ->
  importKey base64Key = Ok key ->
  N.of_nat (12 + length (Utf8.TextEncoder_encode (JSON_stringify payload)) + 16)
  <= argument_limit ->
  aes_key_length key
  /\ exists envelope,
       encryptPayload payload (Some base64Key) e
       = (Ok {| encryptedData := envelope; encryptionKey := base64Key |}, (draw 12 e).2)
       /\ decryptPayload envelope base64Key = Ok payload.
Proof.
  intros Hlen Hinv Hjson Hutf Hk Hsize.
  split; [exact (importKey_length _ _ Hk)|].
  exact (encrypt_then_decrypt payload base64Key key e Hlen Hinv Hjson Hutf Hk Hsize).
Qed.

(** X3. Round trip without a key, as the pages and the test suite
    call it, for a payload whose envelope is within the number of
    arguments the engine takes: [encryptPayload(payload)] returns an
    envelope and a key, and [decryptPayload] of that envelope under
    that key gives the payload back. *)
Theorem round_trip_without_key (payload : json) (e : entropy) :
  GCM_lengths W -> GCM_inverse W -> JSON_round_trip W -> UTF8_round_trip W ->
  N.of_nat (12 + length (Utf8.TextEncoder_encode (JSON_stringify payload)) + 16)
  <= argument_limit ->
  exists r e',
    encryptPayload payload None e = (Ok r, e')
    /\ decryptPayload (encryptedData r) (encryptionKey r) = Ok payload.
Proof.
  intros Hlen Hinv Hjson Hutf Hsize.
  rewrite SymmetricCipher.encryptPayload_without_key.
  pose proof (importKey_btoa _ (draw_length 32 e)) as Hk.
  destruct (encrypt_then_decrypt payload _ _ (draw 32 e).2
              Hlen Hinv Hjson Hutf Hk Hsize) as (envelope & Hrun & Hdec).
  rewrite Hrun. eexists _, _. split; [reflexivity|]. exact Hdec.
Qed.

(** X22. The size of the payload decides whether [encryptPayload]
    returns: under a key [importKey] accepts, in a platform whose
    AES-GCM keeps the lengths, the call returns an envelope exactly
    when the 12 + N + 16 bytes of the envelope, N the length of the
    UTF-8 JSON text, are within the number of arguments the engine
    takes; beyond it the call throws [Error('Failed to encrypt
    payload')], the 12 bytes of the IV already drawn. *)
Theorem encryptPayload_size_limit (payload : json) (base64Key : jsstring)
    (key : bytes) (e : entropy) :
  GCM_lengths W ->
  importKey base64Key = Ok key ->
  let size :=
    (12 + length (Utf8.TextEncoder_encode (JSON_stringify payload)) + 16)%nat in
  (N.of_nat size <= argument_limit ->
   exists envelope,
     encryptPayload payload (Some base64Key) e
     = (Ok {| encryptedData := envelope; encryptionKey := base64Key |}, (draw 12 e).2)
     /\ exists combined,
          Base64.atob_bytes envelope = Ok combined /\ length combined = size)
  /\ (argument_limit < N.of_nat size ->
      encryptPayload payload (Some base64Key) e
      = (Throw (Error (js "Failed to encrypt payload")), (draw 12 e).2)).
Proof.
  intros Hlen Hk. cbv zeta.
  pose proof (envelope_length key (draw 12 e).1
                (Utf8.TextEncoder_encode (JSON_stringify payload)) Hlen
                (importKey_length _ _ Hk) (draw_length 12 e)) as Hall.
  cbv zeta in Hall. split.
  - intros Hle. eexists. split.
    + apply (encryptPayload_within payload _ _ e Hk). now rewrite Hall.
    + eexists. split; [apply Base64Facts.atob_btoa|exact Hall].
  - intros Hgt. apply (encryptPayload_beyond payload _ _ e Hk). now rewrite Hall.
Qed.

(** X4. A key [importKey] rejects (text that is not base64, or that
    decodes to a number of bytes other than 16, 24 or 32), unless it is
    the empty string, makes [encryptPayload] throw
    [Error('Failed to encrypt payload')] before any randomness is read,
    and makes [decryptPayload] throw [Error('Failed to decrypt payload')]
    whatever the envelope. *)
Theorem rejected_key_fails (payload : json) (envelope base64Key : jsstring)
    (x : exn) (e : entropy) :
  base64Key <> [] ->
  importKey base64Key = Throw x ->
  encryptPayload payload (Some base64Key) e
  = (Throw (Error (js "Failed to encrypt payload")), e)
  /\ decryptPayload envelope base64Key = Throw decryption_failed.
Proof.
  intros Hne Hk. split.
  - unfold encryptPayload, try_catch, bind.
    destruct base64Key as [|c k]; [congruence|]. cbn [JsString.truthy].
    unfold ret, lift_result. now rewrite Hk.
  - unfold decryptPayload. now rewrite Hk.
Qed.

(** A key of a wrong size is rejected. *)
Lemma importKey_wrong_size (raw : bytes) :
  ~ aes_key_length raw -> importKey (Base64.btoa_bytes raw) = Throw DataError.
Proof.
  intros Hn. unfold importKey. rewrite Base64Facts.atob_btoa. cbn [result_bind].
  unfold importKey_raw, aes_key_length in *.
  destruct (Nat.eqb_spec (length raw) 16); [tauto|].
  destruct (Nat.eqb_spec (length raw) 24); [tauto|].
  destruct (Nat.eqb_spec (length raw) 32); [tauto|]. reflexivity.
Qed.

(** X5. White space in the base64 text of the envelope or of the key
    (tabs, line feeds, form feeds, carriage returns, spaces) is not
    seen by [decryptPayload]: two envelopes and two keys that agree once
    it is removed give the same result. *)
Theorem decryptPayload_ignores_whitespace (envelope envelope' key key' : jsstring) :
  List.filter (fun c => negb (Base64.is_ascii_whitespace c)) envelope'
  = List.filter (fun c => negb (Base64.is_ascii_whitespace c)) envelope ->
  List.filter (fun c => negb (Base64.is_ascii_whitespace c)) key'
  = List.filter (fun c => negb (Base64.is_ascii_whitespace c)) key ->
  decryptPayload envelope' key' = decryptPayload envelope key.
Proof.
  intros He Hk. unfold decryptPayload, importKey.
  now rewrite (Base64More.atob_same_text _ _ He), (Base64More.atob_same_text _ _ Hk).
Qed.

(** X6. The padding is optional on the way in: [decryptPayload] gives
    the same result for an envelope and a key written by [btoa] and for
    the same texts without their final [=]. *)
Theorem decryptPayload_ignores_padding (combined raw : bytes) :
  decryptPayload (Base64.unpadded combined) (Base64.unpadded raw)
  = decryptPayload (Base64.btoa_bytes combined) (Base64.btoa_bytes raw).
Proof.
  unfold decryptPayload, importKey.
  now rewrite !Base64More.atob_unpadded, !Base64Facts.atob_btoa.
Qed.

End Theorems.
End CipherMore.

Module RandomString.
Import EncryptionUtil EncryptionUtilFacts.

Lemma replace_char_length (a b : N) (s : jsstring) :
  length (JsString.replace_char a b s) = length s.
Proof. apply length_map. Qed.

(** A character of the base64 alphabet, once [+] and [/] are replaced,
    is a letter, a digit, [-] or [_]. *)
Lemma url_safe_char (n : N) :
  JsString.is_url_safe
    (let c := Base64.b64_char n in
     let c := if c =? 43 then 45 else c in
     if c =? 47 then 95 else c) = true.
Proof.
  pose proof (Base64Facts.b64_char_range n) as H. cbv zeta in *.
  unfold JsString.is_url_safe.
  destruct (N.eqb_spec (Base64.b64_char n) 43) as [E|E].
  - reflexivity.
  - destruct (N.eqb_spec (Base64.b64_char n) 47) as [E'|E']; [reflexivity|].
    repeat match goal with
           | |- context [N.leb ?a ?b] => destruct (N.leb_spec a b)
           | |- context [N.eqb ?a ?b] => destruct (N.eqb_spec a b)
           end; cbn; try reflexivity; lia.
Qed.

Lemma url_safe_unpadded (bs : bytes) :
  Forall (fun c => JsString.is_url_safe c = true)
    (JsString.replace_char 47 95 (JsString.replace_char 43 45 (Base64.unpadded bs))).
Proof.
  unfold JsString.replace_char. rewrite map_map.
  apply Forall_map.
  eapply Forall_impl; [apply Base64More.unpadded_chars|].
  intros c [n ->]. apply url_safe_char.
Qed.

Section Theorems.

Context `{W : WebPlatform}.

(** What the characters are once the bytes are drawn and spread. *)
Lemma random_characters (array : bytes) :
  let s := JsString.substring_to (length array)
             (JsString.replace_char 47 95
                (JsString.replace_char 43 45 (Base64.btoa_bytes array))) in
  length s = length array
  /\ Forall (fun c => JsString.is_url_safe c = true) s
  /\ s = firstn (length array)
           (JsString.replace_char 47 95
              (JsString.replace_char 43 45 (Base64.unpadded array))).
Proof.
  cbv zeta.
  destruct (Base64More.btoa_unpadded array) as [k Hk].
  assert (Hfirst : JsString.substring_to (length array)
                     (JsString.replace_char 47 95
                        (JsString.replace_char 43 45 (Base64.btoa_bytes array)))
                   = firstn (length array)
                       (JsString.replace_char 47 95
                          (JsString.replace_char 43 45 (Base64.unpadded array)))).
  { unfold JsString.substring_to, JsString.replace_char. rewrite Hk, !map_app.
    rewrite firstn_app.
    replace (length array - length (map _ (map _ (Base64.unpadded array))))%nat
      with 0%nat.
    - now rewrite firstn_O, app_nil_r.
    - rewrite !length_map. pose proof (Base64More.unpadded_length array). lia. }
  rewrite Hfirst. split; [|split; [|reflexivity]].
  - rewrite length_firstn, !replace_char_length.
    pose proof (Base64More.unpadded_length array). lia.
  - apply Forall_take, url_safe_unpadded.
Qed.

(** What [generateRandomString] does, step by step. *)
Lemma generateRandomString_run (length_arg : option Z) (e : entropy) :
  let n := match length_arg with Some n => n | None => 32%Z end in
  let size := Z.to_nat n in
  let array := (draw size e).1 in
  generateRandomString length_arg e
  = if (n <? 0)%Z || (array_length_limit <? n)%Z then (Throw RangeError, e)
    else if 65536 <? N.of_nat size then (Throw QuotaExceededError, e)
    else if N.of_nat size <=? argument_limit
    then (Ok (JsString.substring_to size
                (JsString.replace_char 47 95
                   (JsString.replace_char 43 45 (Base64.btoa_bytes array)))),
          (draw size e).2)
    else (Throw RangeError, (draw size e).2).
Proof.
  cbv zeta. set (n := match length_arg with Some n => n | None => 32%Z end).
  unfold generateRandomString. fold n.
  unfold bind at 1. unfold lift_result at 1. unfold new_Uint8Array.
  destruct ((n <? 0)%Z || (array_length_limit <? n)%Z); [reflexivity|].
  unfold bind at 1.
  destruct (N.ltb_spec 65536 (N.of_nat (Z.to_nat n))) as [Hq|Hq].
  - now rewrite getRandomValues_quota.
  - rewrite getRandomValues_run by assumption.
    unfold bind at 1. unfold lift_result, String_fromCharCode_spread.
    rewrite draw_length. now destruct (_ <=? argument_limit).
Qed.

(** X7. [generateRandomString(n)] for an integer [n], 32 when there is
    no argument. For [n] from 0 to 65536 that the engine allocates and
    takes as a number of arguments, the call reads [n] random bytes and
    returns exactly [n] characters, each a letter, a digit, [-] or [_]:
    no [+], [/] or [=] of the base64 text is left. Otherwise it
    throws, and the error is not caught: a [RangeError] of
    [new Uint8Array] for a negative [n] or one beyond what the engine
    allocates, nothing read; a [QuotaExceededError] of
    [getRandomValues] for [n] above 65536, nothing read; a
    [RangeError] of the call with [n] arguments when the engine does
    not take that many, the bytes read. *)
Theorem generateRandomString_shape (length_arg : option Z) (e : entropy) :
  let n := match length_arg with Some n => n | None => 32%Z end in
  let size := Z.to_nat n in
  ((0 <= n)%Z -> (n <= array_length_limit)%Z -> (n <= 65536)%Z ->
   Z.to_N n <= argument_limit ->
   exists s,
     generateRandomString length_arg e = (Ok s, (draw size e).2)
     /\ length s = size
     /\ Forall (fun c => JsString.is_url_safe c = true) s
     /\ s = firstn size (JsString.replace_char 47 95
                           (JsString.replace_char 43 45
                              (Base64.unpadded (draw size e).1))))
  /\ ((n < 0)%Z \/ (array_length_limit < n)%Z ->
      generateRandomString length_arg e = (Throw RangeError, e))
  /\ ((0 <= n)%Z -> (n <= array_length_limit)%Z -> (65536 < n)%Z ->
      generateRandomString length_arg e = (Throw QuotaExceededError, e))
  /\ ((0 <= n)%Z -> (n <= array_length_limit)%Z -> (n <= 65536)%Z ->
      argument_limit < Z.to_N n ->
      generateRandomString length_arg e = (Throw RangeError, (draw size e).2)).
Proof.
  cbv zeta. rewrite generateRandomString_run. cbv zeta.
  set (n := match length_arg with Some n => n | None => 32%Z end).
  pose proof (draw_length (Z.to_nat n) e) as Hlen.
  destruct (Z.ltb_spec n 0) as [Hneg|Hpos];
    [repeat split; intros; try reflexivity; lia|].
  destruct (Z.ltb_spec array_length_limit n) as [Hbig|Hfits];
    [repeat split; intros; try reflexivity; lia|].
  cbn [orb].
  destruct (N.ltb_spec 65536 (N.of_nat (Z.to_nat n))) as [Hq|Hq];
    [repeat split; intros; try reflexivity; lia|].
  destruct (N.leb_spec (N.of_nat (Z.to_nat n)) argument_limit) as [Ha|Ha];
    [|repeat split; intros; try reflexivity; lia].
  split; [|repeat split; intros; lia].
  intros _ _ _ _.
  destruct (random_characters (draw (Z.to_nat n) e).1) as (Hs1 & Hs2 & Hs3).
  rewrite Hlen in Hs1, Hs2, Hs3. eexists. split; [reflexivity|].
  split; [exact Hs1|]. split; [exact Hs2|exact Hs3].
Qed.

End Theorems.
End RandomString.

Module Hashing.
Import EncryptionUtil.

Section Theorems.

Variable SHA256 : bytes -> bytes.

(** X8. [hashString] adds no collision of its own to those of SHA-256
    over the UTF-8 text: two inputs have the same hash exactly when the
    digests of their encodings are equal, and the digest is read back
    from the hash by [atob]. *)
Theorem hashString_equal_iff (s t : jsstring) :
  (hashString SHA256 s = hashString SHA256 t
   <-> SHA256 (Utf8.TextEncoder_encode s) = SHA256 (Utf8.TextEncoder_encode t))
  /\ Base64.atob_bytes (hashString SHA256 s) = Ok (SHA256 (Utf8.TextEncoder_encode s)).
Proof.
  unfold hashString. split; [split|].
  - apply Base64More.btoa_injective.
  - now intros ->.
  - apply Base64Facts.atob_btoa.
Qed.

Lemma encode_lone_low_surrogate (c : N) (s : jsstring) :
  Utf8.is_low_surrogate c = true ->
  Utf8.TextEncoder_encode (c :: s)
  = Utf8.encode_code_point Utf8.replacement_character ++ Utf8.TextEncoder_encode s.
Proof.
  intros Hc. cbn [Utf8.TextEncoder_encode]. rewrite Hc.
  assert (Hh : Utf8.is_high_surrogate c = false).
  { unfold Utf8.is_low_surrogate, Utf8.is_high_surrogate in *.
    destruct (N.leb_spec 0xDC00 c); [|discriminate].
    destruct (N.ltb_spec c 0xDC00); [lia|]. apply andb_false_r. }
  now rewrite Hh.
Qed.

(** X9. [hashString] does not tell apart strings that differ in a
    leading unpaired low surrogate: [TextEncoder] writes U+FFFD for
    each, so the hashes are equal whatever SHA-256 is. *)
Theorem hashString_lone_surrogates_collide (c d : N) (s : jsstring) :
  Utf8.is_low_surrogate c = true -> Utf8.is_low_surrogate d = true ->
  hashString SHA256 (c :: s) = hashString SHA256 (d :: s).
Proof.
  intros Hc Hd. unfold hashString.
  now rewrite (encode_lone_low_surrogate c s Hc), (encode_lone_low_surrogate d s Hd).
Qed.

End Theorems.
End Hashing.

Module WrapperMore.
Import RsaEncryptionUtil RsaKeyFetch EncryptionService.

Section Theorems.

Context `{W : WebPlatform}.

(** X10. [importPublicKey] takes a key between the PEM header and
    footer, with white space inside and after, for the key without
    header, footer and white space: same imported key, or same error. *)
Theorem importPublicKey_accepts_pem (body tail : jsstring) :
  ~ In JsString.hyphen body ->
  JsString.remove_whitespace tail = [] ->
  importPublicKey (pemHeader ++ body ++ pemFooter ++ tail)
  = importPublicKey (JsString.remove_whitespace body).
Proof. exact (KeyWrapper.importPublicKey_pem body tail). Qed.

(** What [encryptAESKey] does, step by step. *)
Lemma encryptAESKey_run (base64AESKey base64PublicKey : jsstring) (e : entropy) :
  let failed := Throw (Error (js "Failed to encrypt AES key with RSA")) in
  encryptAESKey base64AESKey base64PublicKey e
  = match Base64.atob_bytes base64AESKey with
    | Ok aesKeyBytes =>
        match importPublicKey base64PublicKey with
        | Ok publicKey =>
            match RSA_OAEP_SHA256 (material publicKey) (draw 32 e).1 aesKeyBytes with
            | Some ct => (Ok (Base64.btoa_bytes ct), (draw 32 e).2)
            | None => (failed, (draw 32 e).2)
            end
        | Throw _ => (failed, e)
        end
    | Throw _ => (failed, e)
    end.
Proof.
  cbv zeta. unfold encryptAESKey, try_catch at 1. unfold bind at 1.
  unfold lift_result at 1.
  destruct (Base64.atob_bytes base64AESKey) as [raw|]; [|reflexivity].
  unfold encryptWithPublicKey, try_catch, bind, lift_result.
  destruct (importPublicKey base64PublicKey) as [pk|]; [|reflexivity].
  unfold encrypt_RSA_OAEP, bind, random_bytes.
  destruct (draw 32 e) as [seed e']. cbn [fst snd].
  destruct (RSA_OAEP_SHA256 _ _ _); reflexivity.
Qed.

(** X11. [encryptAESKey] succeeds exactly when the key text decodes,
    the public key imports and RSA-OAEP takes the decoded bytes; the
    result is then the base64 text of the RSA-OAEP ciphertext of those
    bytes under a 32-byte random seed. Every failure is the one
    [Error('Failed to encrypt AES key with RSA')], and no randomness is
    read unless the public key imported. *)
Theorem encryptAESKey_result (base64AESKey base64PublicKey : jsstring)
    (e e' : entropy) (r : result jsstring) :
  encryptAESKey base64AESKey base64PublicKey e = (r, e') ->
  match r with
  | Ok encryptedKey =>
      exists aesKeyBytes publicKey ct,
        Base64.atob_bytes base64AESKey = Ok aesKeyBytes
        /\ importPublicKey base64PublicKey = Ok publicKey
        /\ RSA_OAEP_SHA256 (material publicKey) (draw 32 e).1 aesKeyBytes = Some ct
        /\ encryptedKey = Base64.btoa_bytes ct
        /\ e' = (draw 32 e).2
  | Throw x =>
      x = Error (js "Failed to encrypt AES key with RSA")
      /\ (e' = e \/ exists publicKey,
                      importPublicKey base64PublicKey = Ok publicKey
                      /\ e' = (draw 32 e).2)
  end.
Proof.
  rewrite encryptAESKey_run. cbv zeta.
  destruct (Base64.atob_bytes base64AESKey) as [raw|]; [|intros [= <- <-]; auto].
  destruct (importPublicKey base64PublicKey) as [pk|]; [|intros [= <- <-]; auto].
  destruct (RSA_OAEP_SHA256 _ _ _) as [ct|] eqn:Hct; intros [= <- <-].
  - exists raw, pk, ct. auto.
  - split; [reflexivity|]. right. eauto.
Qed.

Lemma fetchPublicKey_ok (reply : fetch_reply) (session : KeyExchange.t) :
  fetchPublicKey reply = Ok session ->
  exists statusText d,
    reply = FetchResponse true statusText (Some (Some d))
    /\ KeyExchange.sessionId session = PublicKeyData.sessionId d
    /\ KeyExchange.publicKey session = PublicKeyData.publicKey d
    /\ PublicKeyData.sessionId d <> []
    /\ PublicKeyData.publicKey d <> [].
Proof.
  unfold fetchPublicKey, result_catch.
  destruct reply as [|[|] statusText [[d|]|]]; try discriminate.
  destruct (PublicKeyData.sessionId d) as [|c1 s1] eqn:Hs; [discriminate|].
  destruct (PublicKeyData.publicKey d) as [|c2 s2] eqn:Hp; [discriminate|].
  cbn. intros [= <-]. exists statusText, d. cbn. rewrite Hs, Hp.
  repeat split; discriminate.
Qed.

(** X12. [fetchPublicKey] returns only from a response that is [ok]
    and carries a non-empty session id and a non-empty public key, and
    returns exactly these two; from such a response it does return.
    Every other outcome, rejected request, status not ok, body that is
    not JSON, missing data or field, is the one
    [Error('Failed to fetch RSA public key from server')]. *)
Theorem fetchPublicKey_result (reply : fetch_reply) :
  match fetchPublicKey reply with
  | Ok session =>
      exists statusText d,
        reply = FetchResponse true statusText (Some (Some d))
        /\ session = {| KeyExchange.sessionId := PublicKeyData.sessionId d;
                        KeyExchange.publicKey := PublicKeyData.publicKey d |}
        /\ KeyExchange.sessionId session <> []
        /\ KeyExchange.publicKey session <> []
  | Throw x =>
      x = fetch_failure
      /\ forall statusText d,
           reply = FetchResponse true statusText (Some (Some d)) ->
           PublicKeyData.sessionId d = [] \/ PublicKeyData.publicKey d = []
  end.
Proof.
  unfold fetchPublicKey, result_catch.
  destruct reply as [|[|] statusText [[d|]|]];
    try (split; [reflexivity|intros ? ? [=]]).
  destruct (PublicKeyData.sessionId d) as [|c1 s1] eqn:Hs.
  { cbn. split; [reflexivity|]. intros ? ? [= _ <-]. now left. }
  destruct (PublicKeyData.publicKey d) as [|c2 s2] eqn:Hp.
  { cbn. split; [reflexivity|]. intros ? ? [= _ <-]. now right. }
  cbn. exists statusText, d. rewrite Hs, Hp. repeat split; discriminate.
Qed.

End Theorems.
End WrapperMore.

(** A returned pair, taken apart without computing in it. *)
Lemma returned {S A : Type} (a b : A) (s t : S) :
  (Ok a, s) = (Ok b, t) -> a = b /\ s = t.
Proof. now intros [= -> ->]. Qed.

Module AddCardFlow.
Import EncryptionUtil EncryptionUtilFacts RsaEncryptionUtil RsaKeyFetch AddCard.

Section Theorems.

Context `{W : WebPlatform}.

(** What [secureSubmission] does on a usable answer. *)
Lemma secureSubmission_run (backendPayload : json) (statusText : jsstring)
    (d : PublicKeyData.t) (e : entropy) :
  PublicKeyData.sessionId d <> [] -> PublicKeyData.publicKey d <> [] ->
  let raw := (draw 32 e).1 in
  let e1 := (draw 32 e).2 in
  let iv := (draw 12 e1).1 in
  let e2 := (draw 12 e1).2 in
  let CT := GCM_AE raw iv 128 (Utf8.TextEncoder_encode (JSON_stringify backendPayload)) in
  secureSubmission backendPayload (FetchResponse true statusText (Some (Some d))) e
  = if N.of_nat (length (iv ++ CT.1 ++ CT.2)) <=? argument_limit then
      match importPublicKey (PublicKeyData.publicKey d) with
      | Ok publicKey =>
          match RSA_OAEP_SHA256 (material publicKey) (draw 32 e2).1 raw with
          | Some ct =>
              (Ok {| SecureCard.sessionId := PublicKeyData.sessionId d;
                     SecureCard.encryptedData := Base64.btoa_bytes (iv ++ CT.1 ++ CT.2);
                     SecureCard.encryptedKey := Base64.btoa_bytes ct |},
               (draw 32 e2).2)
          | None =>
              (Throw (Error (js "Failed to encrypt AES key with RSA")), (draw 32 e2).2)
          end
      | Throw _ => (Throw (Error (js "Failed to encrypt AES key with RSA")), e2)
      end
    else (Throw (Error (js "Failed to encrypt payload")), e2).
Proof.
  intros Hs Hp. cbv zeta.
  pose proof (importKey_btoa _ (draw_length 32 e)) as Hk.
  unfold secureSubmission. unfold bind at 1. unfold lift_result, fetchPublicKey.
  destruct (PublicKeyData.sessionId d) as [|c1 s1] eqn:Es; [congruence|].
  destruct (PublicKeyData.publicKey d) as [|c2 s2] eqn:Ep; [congruence|].
  cbn [negb JsString.truthy orb result_catch].
  unfold bind at 1.
  rewrite SymmetricCipher.encryptPayload_without_key.
  rewrite (encryptPayload_run backendPayload _ _ _ Hk). cbv zeta.
  destruct (_ <=? argument_limit); [|reflexivity].
  cbn [encryptionKey encryptedData KeyExchange.publicKey KeyExchange.sessionId].
  unfold bind at 1.
  rewrite WrapperMore.encryptAESKey_run, Base64Facts.atob_btoa.
  destruct (importPublicKey (c2 :: s2)) as [pk|]; [|reflexivity].
  destruct (RSA_OAEP_SHA256 _ _ _); reflexivity.
Qed.

Lemma SecureCard_fields (a b c : jsstring) (sent : SecureCard.t) :
  {| SecureCard.sessionId := a; SecureCard.encryptedData := b;
     SecureCard.encryptedKey := c |} = sent ->
  SecureCard.sessionId sent = a /\ SecureCard.encryptedData sent = b
  /\ SecureCard.encryptedKey sent = c.
Proof. intros <-. repeat split. Qed.

(** A successful [secureSubmission], taken apart. *)
Lemma secureSubmission_ok (backendPayload : json) (reply : fetch_reply)
    (e e' : entropy) (sent : SecureCard.t) :
  secureSubmission backendPayload reply e = (Ok sent, e') ->
  let raw := (draw 32 e).1 in
  let iv := (draw 12 (draw 32 e).2).1 in
  let seed := (draw 32 (draw 12 (draw 32 e).2).2).1 in
  let CT := GCM_AE raw iv 128 (Utf8.TextEncoder_encode (JSON_stringify backendPayload)) in
  exists statusText d publicKey ct,
    reply = FetchResponse true statusText (Some (Some d))
    /\ importPublicKey (PublicKeyData.publicKey d) = Ok publicKey
    /\ RSA_OAEP_SHA256 (material publicKey) seed raw = Some ct
    /\ SecureCard.sessionId sent = PublicKeyData.sessionId d
    /\ SecureCard.encryptedData sent = Base64.btoa_bytes (iv ++ CT.1 ++ CT.2)
    /\ SecureCard.encryptedKey sent = Base64.btoa_bytes ct.
Proof.
  intros H. cbv zeta.
  assert (Hreply : exists statusText d,
             reply = FetchResponse true statusText (Some (Some d))
             /\ PublicKeyData.sessionId d <> [] /\ PublicKeyData.publicKey d <> []).
  { destruct (fetchPublicKey reply) as [session|] eqn:Hf.
    - destruct (WrapperMore.fetchPublicKey_ok _ _ Hf) as (st & d & -> & _ & _ & Hs & Hp).
      eauto.
    - exfalso. revert H. unfold secureSubmission. unfold bind at 1.
      unfold lift_result. rewrite Hf. discriminate. }
  destruct Hreply as (statusText & d & -> & Hs & Hp).
  rewrite (secureSubmission_run backendPayload statusText d e Hs Hp) in H.
  cbv zeta in H. destruct (_ <=? argument_limit); [|discriminate].
  destruct (importPublicKey _) as [pk|] eqn:Hpk; [|discriminate].
  destruct (RSA_OAEP_SHA256 _ _ _) as [ct|] eqn:Hct; [|discriminate].
  apply returned in H. destruct H as [Hsent _].
  exists statusText, d, pk, ct.
  split; [reflexivity|]. split; [exact Hpk|]. split; [exact Hct|].
  exact (SecureCard_fields _ _ _ _ Hsent).
Qed.

(** X13. What the Add Card page sends can be opened by the holder of
    the private key: when the three encryption steps of [handleSubmit]
    succeed, the session id sent is the one the server issued,
    [encryptedKey] is base64 of an RSA-OAEP ciphertext whose plaintext
    is the 32 raw bytes of the AES key, and [decryptPayload] of
    [encryptedData] under the base64 text of those bytes returns the
    payload of the form. *)
Theorem secureSubmission_recoverable (backendPayload : json) (reply : fetch_reply)
    (e e' : entropy) (sent : SecureCard.t)
    (unwrap : rsa_public -> bytes -> option bytes) :
  GCM_lengths W -> GCM_inverse W -> JSON_round_trip W -> UTF8_round_trip W ->
  RSA_inverse W unwrap ->
  secureSubmission backendPayload reply e = (Ok sent, e') ->
  exists statusText d publicKey ct raw,
    reply = FetchResponse true statusText (Some (Some d))
    /\ SecureCard.sessionId sent = PublicKeyData.sessionId d
    /\ importPublicKey (PublicKeyData.publicKey d) = Ok publicKey
    /\ Base64.atob_bytes (SecureCard.encryptedKey sent) = Ok ct
    /\ unwrap (material publicKey) ct = Some raw
    /\ length raw = 32%nat
    /\ decryptPayload (SecureCard.encryptedData sent) (Base64.btoa_bytes raw)
       = Ok backendPayload.
Proof.
  intros Hlen Hinv Hjson Hutf Hrsa H.
  destruct (secureSubmission_ok _ _ _ _ _ H)
    as (statusText & d & pk & ct & Hreply & Hpk & Hct & Hsid & Hdata & Hkey).
  pose proof (draw_length 32 e) as Hraw.
  pose proof (importKey_btoa _ Hraw) as Hk.
  exists statusText, d, pk, ct, (draw 32 e).1.
  rewrite Hdata, Hkey.
  split; [exact Hreply|]. split; [exact Hsid|]. split; [exact Hpk|].
  split; [apply Base64Facts.atob_btoa|].
  split; [apply (Hrsa _ _ _ _ (draw_length 32 _) Hct)|].
  split; [exact Hraw|].
  apply (CipherMore.decrypt_built_envelope backendPayload _ _ _
           Hlen Hinv Hjson Hutf Hk).
  apply draw_length.
Qed.

End Theorems.
End AddCardFlow.

Module ImportsCompared.
Import RsaEncryptionUtil EncryptionService.

Section Theorems.

Context `{W : WebPlatform}.

Lemma filter_fixed {A : Type} (f : A -> bool) (l : list A) :
  List.filter f l = l -> Forall (fun x => f x = true) l.
Proof.
  induction l as [|x l IH]; [constructor|].
  cbn [List.filter]. destruct (f x) eqn:Hx.
  - intros [= H]. constructor; auto.
  - intros H. pose proof (List.filter_length_le f l) as Hle.
    rewrite H in Hle. cbn [length] in Hle. lia.
Qed.

Lemma trim_start_clean (s : jsstring) :
  Forall (fun c => negb (JsString.is_js_whitespace c) = true) s ->
  JsString.trim_start s = s.
Proof.
  intros [|c l Hc _]; [reflexivity|]. cbn [JsString.trim_start].
  now destruct (JsString.is_js_whitespace c).
Qed.

Lemma trim_clean (s : jsstring) :
  JsString.remove_whitespace s = s -> JsString.trim s = s.
Proof.
  intros H. apply filter_fixed in H. unfold JsString.trim.
  rewrite (trim_start_clean s H).
  rewrite trim_start_clean; [apply rev_involutive|].
  now apply List.Forall_rev.
Qed.

Lemma trim_start_blank (s : jsstring) :
  JsString.remove_whitespace s = [] -> JsString.trim_start s = [].
Proof.
  unfold JsString.remove_whitespace.
  induction s as [|c s IH]; [reflexivity|]. cbn [List.filter JsString.trim_start].
  destruct (JsString.is_js_whitespace c); [exact IH|discriminate].
Qed.

(** X14. On a key text that has no white space and no hyphen in it
    and is not empty, the import of [encryptionService.ts] and the
    import of [rsaEncryptionUtil.ts] agree: they throw the same error
    or import the same key material, the first as an extractable key,
    the second not. An empty or blank text is rejected by the first
    without being decoded. *)
Theorem imports_agree_on_clean_base64 (base64Key : jsstring) :
  (JsString.remove_whitespace base64Key = base64Key ->
   ~ In JsString.hyphen base64Key ->
   base64Key <> [] ->
   importRSAPublicKeyFromBase64 base64Key
   = match importPublicKey base64Key with
     | Ok k => Ok {| material := material k; extractable := true |}
     | Throw x => Throw x
     end)
  /\ (JsString.remove_whitespace base64Key = [] ->
      importRSAPublicKeyFromBase64 base64Key = Throw import_failure).
Proof.
  split.
  - intros Hclean Hhyphen Hne.
    unfold importRSAPublicKeyFromBase64, importPublicKey.
    rewrite (trim_clean _ Hclean).
    assert (Hh : pemHeader = JsString.hyphen :: tl pemHeader) by reflexivity.
    assert (Hf : pemFooter = JsString.hyphen :: tl pemFooter) by reflexivity.
    rewrite Hh, Hf.
    rewrite (JsStringFacts.replace_first_absent JsString.hyphen (tl pemHeader)
               base64Key Hhyphen).
    rewrite (JsStringFacts.replace_first_absent JsString.hyphen (tl pemFooter)
               base64Key Hhyphen).
    rewrite Hclean.
    destruct base64Key as [|c k]; [congruence|].
    cbn [JsString.truthy negb length Nat.eqb orb].
    destruct (Base64.atob_bytes (c :: k)) as [der|]; [|reflexivity].
    cbn [result_catch result_bind]. unfold importKey_spki.
    destruct (parse_spki der); reflexivity.
  - intros Hblank. unfold importRSAPublicKeyFromBase64, JsString.trim.
    rewrite (trim_start_blank _ Hblank). cbn [rev app JsString.trim_start length Nat.eqb].
    now rewrite orb_true_r.
Qed.

End Theorems.
End ImportsCompared.

Module SessionMore.
Import EncryptionUtil EncryptionUtilFacts EncryptionService EncryptionServiceFacts.

Section Theorems.

Context `{W : WebPlatform}.

Lemma truthy_nonempty (s : jsstring) : JsString.truthy s = true <-> s <> [].
Proof. destruct s; cbn; split; congruence. Qed.

(** X15. [getPublicKey] returns only from an answer that carries a
    non-empty session id and a non-empty public key; it then returns
    them as the session and records that session as the current one,
    leaving key store and random generator alone. Every other answer
    ends in [Error('Failed to establish secure session')] with the
    state as it was. *)
Theorem getPublicKey_result (reply : http_reply) (st : state) :
  match getPublicKey reply st with
  | (Ok session, st') =>
      exists d,
        reply = Response (Some d)
        /\ session = {| SessionInfo.sessionId := PublicKeyData.sessionId d;
                        SessionInfo.publicKey := PublicKeyData.publicKey d;
                        SessionInfo.expiryTime := PublicKeyData.expiryTime d |}
        /\ SessionInfo.sessionId session <> []
        /\ SessionInfo.publicKey session <> []
        /\ st' = {| currentSession := Some session;
                    aesKeyStore := aesKeyStore st; random := random st |}
  | (Throw x, st') =>
      x = Error (js "Failed to establish secure session") /\ st' = st
  end.
Proof.
  unfold getPublicKey, try_catch, bind, set_currentSession, ret, throw.
  destruct reply as [|[d|]]; try (split; reflexivity).
  destruct (JsString.truthy (PublicKeyData.sessionId d)) eqn:Hs;
    destruct (JsString.truthy (PublicKeyData.publicKey d)) eqn:Hp;
    cbn [negb orb]; try (split; reflexivity).
  exists d. apply truthy_nonempty in Hs, Hp. cbn. auto.
Qed.

(** The state [encryptRequest] leaves, whatever it returns. *)
Lemma encryptRequest_state (payload : json) (payloadType : option jsstring)
    (reply : http_reply) (st st' : state) (r : result EncryptedRequest.t) :
  encryptRequest payload payloadType reply st = (r, st') ->
  (r = Throw encrypt_failure /\ st' = st)
  \/ exists d,
       reply = Response (Some d)
       /\ PublicKeyData.sessionId d <> []
       /\ aesKeyStore st'
          = JsObject.set (PublicKeyData.sessionId d)
              (Base64.btoa_bytes (draw 32 (random st)).1) (aesKeyStore st)
       /\ currentSession st'
          = Some {| SessionInfo.sessionId := PublicKeyData.sessionId d;
                    SessionInfo.publicKey := PublicKeyData.publicKey d;
                    SessionInfo.expiryTime := PublicKeyData.expiryTime d |}
       /\ (r = Throw encrypt_failure
           \/ exists req, r = Ok req
                          /\ EncryptedRequest.sessionId req = PublicKeyData.sessionId d).
Proof.
  intros H.
  destruct reply as [|[d|]];
    try (rewrite encryptRequest_no_session in H by exact I;
         injection H as <- <-; now left).
  destruct (JsString.truthy (PublicKeyData.sessionId d)) eqn:Hs;
    destruct (JsString.truthy (PublicKeyData.publicKey d)) eqn:Hp;
    try (rewrite encryptRequest_no_session in H by (now rewrite Hs, Hp);
         injection H as <- <-; now left).
  right. exists d. split; [reflexivity|].
  split; [now apply truthy_nonempty|].
  rewrite (encryptRequest_run payload payloadType d st Hs Hp) in H.
  cbv zeta in H.
  destruct (_ <=? argument_limit);
    [destruct (importRSAPublicKeyFromBase64 _) as [pk|];
     [destruct (RSA_OAEP_SHA256 _ _ _) as [ct|]|]|];
    apply pair_equal_spec in H; destruct H as [<- <-];
    (split; [reflexivity|]); (split; [reflexivity|]);
    try (now left).
  right. eexists. split; reflexivity.
Qed.

Lemma store_ok_set (m : gmap jsstring jsstring) (sessionId : jsstring) (raw : bytes) :
  store_ok m -> sessionId <> [] -> length raw = 32%nat ->
  store_ok (JsObject.set sessionId (Base64.btoa_bytes raw) m).
Proof.
  intros Hm Hs Hraw. unfold JsObject.set.
  destruct (decide (sessionId = JsObject.proto)); [assumption|].
  intros sid k. rewrite lookup_insert.
  destruct (decide (sessionId = sid)) as [<-|_].
  - intros [= <-]. eauto.
  - apply Hm.
Qed.

Lemma store_ok_insert (m : gmap jsstring jsstring) (sessionId : jsstring) (raw : bytes) :
  store_ok m -> sessionId <> [] -> length raw = 32%nat ->
  store_ok (<[sessionId := Base64.btoa_bytes raw]> m).
Proof.
  intros Hm Hs Hraw sid k. rewrite lookup_insert.
  destruct (decide (sessionId = sid)) as [<-|_].
  - intros [= <-]. eauto.
  - apply Hm.
Qed.

Lemma store_ok_delete (m : gmap jsstring jsstring) (sessionId : jsstring) :
  store_ok m -> store_ok (delete sessionId m).
Proof.
  intros Hm sid k. rewrite lookup_delete.
  destruct (decide (sessionId = sid)); [discriminate|apply Hm].
Qed.

(** X16. The key store keeps its shape: if every session id on file
    is non-empty and every key on file is the base64 text of 32 bytes,
    the same holds after [encryptRequest] and after [decryptResponse],
    whatever they were given and whether they returned or threw. A key
    on file therefore always imports, and is never the empty string
    that [decryptResponse] would take for a missing key. *)
Theorem store_shape_preserved (st : state) :
  store_ok (aesKeyStore st) ->
  (forall payload payloadType reply r st',
      encryptRequest payload payloadType reply st = (r, st') ->
      store_ok (aesKeyStore st'))
  /\ (forall encryptedResponse r st',
        decryptResponse encryptedResponse st = (r, st') ->
        store_ok (aesKeyStore st'))
  /\ (forall sessionId aesKey,
        aesKeyStore st !! sessionId = Some aesKey ->
        JsString.truthy aesKey = true
        /\ exists raw, importKey aesKey = Ok raw /\ length raw = 32%nat).
Proof.
  intros Hm. split; [|split].
  - intros payload payloadType reply r st' H.
    destruct (encryptRequest_state _ _ _ _ _ _ H) as [[_ ->]|(d & _ & Hs & -> & _)];
      [assumption|].
    apply store_ok_set; [assumption..|apply draw_length].
  - intros encryptedResponse r st'. rewrite decryptResponse_run. cbv zeta.
    destruct (aesKeyStore st !! _) as [aesKey|]; [|now intros [= _ <-]].
    destruct (JsString.truthy aesKey); [|now intros [= _ <-]].
    destruct (decryptPayload _ aesKey); [|now intros [= _ <-]].
    intros [= _ <-]. cbn [with_store aesKeyStore]. now apply store_ok_delete.
  - intros sessionId aesKey Hk.
    destruct (Hm _ _ Hk) as (_ & raw & Hraw & ->).
    split; [|exists raw; split; [now apply importKey_btoa|assumption]].
    apply btoa_truthy. intros H0. now rewrite H0 in Hraw.
Qed.

(** X17. [encryptRequest] touches no other session: whatever it is
    given and whether it returns or throws, the key on file for every
    session id other than the one the key endpoint answered with is
    what it was. *)
Theorem encryptRequest_keeps_other_sessions (payload : json)
    (payloadType : option jsstring) (reply : http_reply) (st st' : state)
    (r : result EncryptedRequest.t) (other : jsstring) :
  encryptRequest payload payloadType reply st = (r, st') ->
  (forall d, reply = Response (Some d) -> PublicKeyData.sessionId d <> other) ->
  aesKeyStore st' !! other = aesKeyStore st !! other.
Proof.
  intros H Hother.
  destruct (encryptRequest_state _ _ _ _ _ _ H) as [[_ ->]|(d & Hr & _ & -> & _)];
    [reflexivity|].
  apply JsObjectFacts.lookup_set_ne. now apply Hother.
Qed.

(** X18. Responses of different sessions can be decrypted in either
    order: [decryptResponse] for one session id and then for another
    gives the same two results and the same final state as the two
    calls made the other way round. *)
Theorem decryptResponse_commutes (a b : EncryptedResponse.t) (st st1 st2 : state)
    (ra rb : result json) :
  EncryptedResponse.sessionId a <> EncryptedResponse.sessionId b ->
  decryptResponse a st = (ra, st1) ->
  decryptResponse b st1 = (rb, st2) ->
  exists st1',
    decryptResponse b st = (rb, st1')
    /\ decryptResponse a st1' = (ra, st2).
Proof.
  intros Hne. destruct st as [cs m rnd].
  rewrite !decryptResponse_run. cbv zeta.
  cbn [aesKeyStore with_store currentSession random].
  set (sa := EncryptedResponse.sessionId a) in *.
  set (sb := EncryptedResponse.sessionId b) in *.
  assert (Hab : forall m : gmap jsstring jsstring, delete sa m !! sb = m !! sb)
    by (intros m'; now apply lookup_delete_ne).
  assert (Hba : forall m : gmap jsstring jsstring, delete sb m !! sa = m !! sa)
    by (intros m'; apply lookup_delete_ne; congruence).
  destruct (m !! sa) as [ka|] eqn:Ela;
    [destruct (JsString.truthy ka) eqn:Eta;
     [destruct (decryptPayload (EncryptedResponse.encryptedData a) ka) eqn:Eda|]|];
    intros Ha; apply pair_equal_spec in Ha; destruct Ha as [<- <-];
    cbn [aesKeyStore with_store currentSession random]; rewrite ?Hab;
    (destruct (m !! sb) as [kb|] eqn:Elb;
     [destruct (JsString.truthy kb) eqn:Etb;
      [destruct (decryptPayload (EncryptedResponse.encryptedData b) kb) eqn:Edb|]|]);
    intros Hb; apply pair_equal_spec in Hb; destruct Hb as [<- <-];
    eexists; (split; [reflexivity|]);
    rewrite decryptResponse_run; cbv zeta; fold sa;
    unfold with_store; cbn [aesKeyStore currentSession random];
    rewrite ?Hba, ?Ela, ?Eta, ?Eda; try reflexivity;
    now rewrite delete_delete.
Qed.

(** X19. A request and its response: once [encryptRequest] has
    returned for a session not named [__proto__], a response that
    carries the request's session id and an envelope built under the
    request's AES key the way [encryptPayload] builds one, whatever its
    [encryptedKey] field, is decrypted by [decryptResponse] to the
    value in the envelope, and the key leaves the store. The envelope
    of the answer is one [encryptPayload] builds in this engine when
    its 12 + N + 16 bytes are within the number of arguments the
    engine takes. *)
Theorem request_then_response (payload : json) (payloadType : option jsstring)
    (reply : http_reply) (st st1 : state) (req : EncryptedRequest.t)
    (answer : json) (server : entropy) (anyKey : jsstring) :
  GCM_lengths W -> GCM_inverse W -> JSON_round_trip W -> UTF8_round_trip W ->
  encryptRequest payload payloadType reply st = (Ok req, st1) ->
  EncryptedRequest.sessionId req <> JsObject.proto ->
  N.of_nat (12 + length (Utf8.TextEncoder_encode (JSON_stringify answer)) + 16)
  <= argument_limit ->
  let aesKey := Base64.btoa_bytes (draw 32 (random st)).1 in
  exists envelope,
    encryptPayload answer (Some aesKey) server
    = (Ok {| encryptedData := envelope; encryptionKey := aesKey |}, (draw 12 server).2)
    /\ decryptResponse
         {| EncryptedResponse.sessionId := EncryptedRequest.sessionId req;
            EncryptedResponse.encryptedData := envelope;
            EncryptedResponse.encryptedKey := anyKey |} st1
       = (Ok answer,
          with_store st1 (delete (EncryptedRequest.sessionId req) (aesKeyStore st1))).
Proof.
  intros Hlen Hinv Hjson Hutf H Hproto Hsize. cbv zeta.
  pose proof (draw_length 32 (random st)) as Hraw.
  pose proof (importKey_btoa _ Hraw) as Hk.
  destruct (CipherMore.encrypt_then_decrypt answer _ _ server
              Hlen Hinv Hjson Hutf Hk Hsize) as (envelope & Hrun & Hdec).
  exists envelope. split; [exact Hrun|].
  destruct (encryptRequest_state _ _ _ _ _ _ H)
    as [[[=] _]|(d & _ & _ & Hstore & _ & [[=]|(req' & [= <-] & Hsid)])].
  rewrite decryptResponse_run. cbv zeta.
  cbn [EncryptedResponse.sessionId EncryptedResponse.encryptedData].
  rewrite Hstore, Hsid, JsObjectFacts.lookup_set by (now rewrite <- Hsid).
  rewrite btoa_truthy by (intros H0; now rewrite H0 in Hraw).
  now rewrite Hdec.
Qed.

(** X20. A request that fails after its session was obtained leaves
    its key behind: when the key endpoint answered with a session id,
    other than [__proto__], and a public key, and [encryptRequest]
    throws all the same (the envelope is beyond the number of
    arguments the engine takes, the public key does not import, or
    RSA-OAEP refuses), the caller gets
    [Error('Failed to encrypt request payload')] while the freshly
    generated key stays on file under the session id and the session
    stays the current one. *)
Theorem failed_request_leaves_key (payload : json) (payloadType : option jsstring)
    (d : PublicKeyData.t) (st st' : state) (x : exn) :
  PublicKeyData.sessionId d <> [] ->
  PublicKeyData.publicKey d <> [] ->
  PublicKeyData.sessionId d <> JsObject.proto ->
  encryptRequest payload payloadType (Response (Some d)) st = (Throw x, st') ->
  let fresh := Base64.btoa_bytes (draw 32 (random st)).1 in
  x = encrypt_failure
  /\ aesKeyStore st' = <[PublicKeyData.sessionId d := fresh]> (aesKeyStore st)
  /\ aesKeyStore st' !! PublicKeyData.sessionId d = Some fresh
  /\ currentSession st'
     = Some {| SessionInfo.sessionId := PublicKeyData.sessionId d;
               SessionInfo.publicKey := PublicKeyData.publicKey d;
               SessionInfo.expiryTime := PublicKeyData.expiryTime d |}.
Proof.
  intros Hs Hp Hproto H. cbv zeta.
  apply truthy_nonempty in Hs, Hp.
  rewrite (encryptRequest_run payload payloadType d st Hs Hp) in H.
  cbv zeta in H.
  destruct (_ <=? argument_limit);
    [destruct (importRSAPublicKeyFromBase64 _) as [pk|];
     [destruct (RSA_OAEP_SHA256 _ _ _) as [ct|]|]|];
    apply pair_equal_spec in H; destruct H as [H <-];
    try discriminate H; injection H as <-;
    cbn [aesKeyStore currentSession];
    rewrite (JsObjectFacts.set_insert _ _ _ Hproto);
    (repeat split; try reflexivity; apply lookup_insert_eq).
Qed.

(** X23. A session named [__proto__] cannot be answered: when the key
    endpoint names the session [__proto__], [encryptRequest] leaves
    the key store as it was, whether it returns or throws, and unless
    something was on file under that name before, every
    [decryptResponse] for that session then throws
    [Error('Failed to decrypt response payload')], whatever the
    response holds. *)
Theorem proto_session_is_lost (payload : json) (payloadType : option jsstring)
    (d : PublicKeyData.t) (st st' : state) (r : result EncryptedRequest.t)
    (encryptedResponse : EncryptedResponse.t) :
  PublicKeyData.sessionId d = JsObject.proto ->
  encryptRequest payload payloadType (Response (Some d)) st = (r, st') ->
  aesKeyStore st !! JsObject.proto = None ->
  EncryptedResponse.sessionId encryptedResponse = JsObject.proto ->
  aesKeyStore st' = aesKeyStore st
  /\ decryptResponse encryptedResponse st' = (Throw decrypt_failure, st').
Proof.
  intros Hd H Hnone Hsid.
  assert (Hstore : aesKeyStore st' = aesKeyStore st).
  { destruct (encryptRequest_state _ _ _ _ _ _ H)
      as [[_ ->]|(d' & [= <-] & _ & -> & _)]; [reflexivity|].
    rewrite Hd. apply JsObjectFacts.set_proto. }
  split; [exact Hstore|].
  rewrite decryptResponse_run. cbv zeta. now rewrite Hsid, Hstore, Hnone.
Qed.

(** X21. [clearSession] forgets the current session and nothing else:
    [getCurrentSession] then returns [null], but the key store is what
    it was, and [decryptResponse], which never reads the current
    session, gives every response the result and the key store it
    would have given before. *)
Theorem clearSession_keeps_keys (st : state) (encryptedResponse : EncryptedResponse.t) :
  let cleared :=
    {| currentSession := None; aesKeyStore := aesKeyStore st; random := random st |} in
  clearSession st = (Ok tt, cleared)
  /\ getCurrentSession cleared = (Ok None, cleared)
  /\ aesKeyStore cleared = aesKeyStore st
  /\ (decryptResponse encryptedResponse cleared).1
     = (decryptResponse encryptedResponse st).1
  /\ aesKeyStore (decryptResponse encryptedResponse cleared).2
     = aesKeyStore (decryptResponse encryptedResponse st).2.
Proof.
  cbv zeta. destruct st as [cs m rnd].
  split; [reflexivity|]. split; [reflexivity|]. split; [reflexivity|].
  rewrite !decryptResponse_run. cbv zeta.
  cbn [aesKeyStore with_store currentSession random].
  destruct (m !! _) as [k|]; [|split; reflexivity].
  destruct (JsString.truthy k); [|split; reflexivity].
  destruct (decryptPayload _ k); split; reflexivity.
Qed.

End Theorems.
End SessionMore.

(** ** Further runs of the model *)

Module MoreRuns.
Import Mock MockFacts EncryptionUtil RsaEncryptionUtil RsaKeyFetch AddCard
  EncryptionService.

Lemma RSA_inverse_holds : RSA_inverse platform unwrap.
Proof.
  intros publicKey seed message ct Hseed. cbn [RSA_OAEP_SHA256 platform].
  unfold oaep, unwrap. destruct (_ <=? _)%nat; [|discriminate].
  intros [= <-]. rewrite skipn_app, <- Hseed, skipn_all, Nat.sub_diag. reflexivity.
Qed.

Lemma key128_imports : importKey key128 = Ok (repeat x07 16).
Proof. vm_compute. reflexivity. Qed.

Lemma not_base64_rejected : importKey (js "@@@@") = Throw InvalidCharacterError.
Proof. vm_compute. reflexivity. Qed.

Lemma wrapped1_run :
  encryptAESKey key1 (js "MIIB") dice = (Ok wrapped1, (draw 32 dice).2).
Proof. vm_compute. reflexivity. Qed.

Lemma sent1_run :
  secureSubmission VTrue fetched1 dice
  = (Ok sent1, (draw 32 (draw 12 (draw 32 dice).2).2).2).
Proof. vm_compute. reflexivity. Qed.

Lemma pending_store_ok : store_ok (aesKeyStore pending).
Proof.
  assert (H : aesKeyStore pending = <[sid1 := Base64.btoa_bytes (draw 32 dice).1]> ∅)
    by (vm_compute; reflexivity).
  rewrite H. apply SessionMore.store_ok_insert.
  - intros sessionId aesKey. rewrite lookup_empty. discriminate.
  - discriminate.
  - apply draw_length.
Qed.

Lemma pending2_run :
  encryptRequest VFalse None reply2 pending = (Ok request2, pending2).
Proof. vm_compute. reflexivity. Qed.

Lemma echoed_first :
  decryptResponse echoed pending2
  = (Ok VTrue, (decryptResponse echoed pending2).2).
Proof. vm_compute. reflexivity. Qed.

Lemma echoed2_second :
  decryptResponse echoed2 (decryptResponse echoed pending2).2
  = (Ok VFalse, with_store pending2 ∅).
Proof. vm_compute. reflexivity. Qed.

Lemma unusable_run :
  encryptRequest VTrue None (Response (Some unusable)) start
  = (Throw encrypt_failure,
     (encryptRequest VTrue None (Response (Some unusable)) start).2).
Proof. vm_compute. reflexivity. Qed.

(** Witness of X2: the payload [null] under a key of 128 bits. *)
Lemma round_trip_under_imported_key_run :
  aes_key_length (repeat x07 16)
  /\ exists envelope,
       encryptPayload VNull (Some key128) dice
       = (Ok {| encryptedData := envelope; encryptionKey := key128 |}, (draw 12 dice).2)
       /\ decryptPayload envelope key128 = Ok VNull.
Proof.
  refine (CipherMore.round_trip_under_imported_key (W:=platform) VNull key128
            (repeat x07 16) dice GCM_lengths_holds GCM_inverse_holds
            JSON_round_trip_holds UTF8_round_trip_holds key128_imports _).
  vm_compute. discriminate.
Defined.

(** Witness of X3. *)
Lemma round_trip_without_key_run :
  exists r e',
    encryptPayload VTrue None dice = (Ok r, e')
    /\ decryptPayload (encryptedData r) (encryptionKey r) = Ok VTrue.
Proof.
  refine (CipherMore.round_trip_without_key (W:=platform) VTrue dice
            GCM_lengths_holds GCM_inverse_holds JSON_round_trip_holds
            UTF8_round_trip_holds _).
  vm_compute. discriminate.
Defined.

(** Witness of X4: a key that is not base64. *)
Lemma rejected_key_fails_run :
  encryptPayload VTrue (Some (js "@@@@")) dice
  = (Throw (Error (js "Failed to encrypt payload")), dice)
  /\ decryptPayload (EncryptedResponse.encryptedData echoed) (js "@@@@")
     = Throw decryption_failed.
Proof.
  refine (CipherMore.rejected_key_fails (W:=platform) VTrue
            (EncryptedResponse.encryptedData echoed) (js "@@@@")
            InvalidCharacterError dice _ not_base64_rejected).
  discriminate.
Defined.

(** Witness of X5: the folded envelope and the key followed by a line
    feed. *)
Lemma decryptPayload_ignores_whitespace_run :
  decryptPayload folded (key1 ++ [10])
  = decryptPayload (EncryptedResponse.encryptedData echoed) key1.
Proof.
  apply CipherMore.decryptPayload_ignores_whitespace; vm_compute; reflexivity.
Defined.

(** Witness of X7: the call without an argument. *)
Lemma generateRandomString_shape_run :
  exists s,
    generateRandomString None dice = (Ok s, (draw 32 dice).2)
    /\ length s = 32%nat
    /\ Forall (fun c => JsString.is_url_safe c = true) s
    /\ s = firstn 32 (JsString.replace_char 47 95
                        (JsString.replace_char 43 45
                           (Base64.unpadded (draw 32 dice).1))).
Proof.
  apply (proj1 (RandomString.generateRandomString_shape (W:=platform) None dice));
    vm_compute; discriminate.
Defined.

(** The calls of [generateRandomString] that throw, in [platform]. *)
Lemma generateRandomString_throws :
  generateRandomString (Some (-1)%Z) dice = (Throw RangeError, dice)
  /\ generateRandomString (Some 65537%Z) dice = (Throw QuotaExceededError, dice)
  /\ generateRandomString (Some 4294967296%Z) dice = (Throw RangeError, dice).
Proof.
  rewrite !RandomString.generateRandomString_run. repeat split.
Qed.

(** Witness of X22: [null] is encrypted, [large] is not. *)
Lemma encryptPayload_size_limit_run :
  (exists envelope,
      encryptPayload VNull (Some key1) dice
      = (Ok {| encryptedData := envelope; encryptionKey := key1 |}, (draw 12 dice).2)
      /\ exists combined,
           Base64.atob_bytes envelope = Ok combined
           /\ length combined
              = (12 + length (Utf8.TextEncoder_encode (JSON_stringify VNull)) + 16)%nat)
  /\ encryptPayload large (Some key1) dice
     = (Throw (Error (js "Failed to encrypt payload")), (draw 12 dice).2).
Proof.
  split.
  - apply (proj1 (CipherMore.encryptPayload_size_limit (W:=platform) VNull key1
                    (draw 32 dice).1 dice GCM_lengths_holds Runs.key1_imports)).
    vm_compute. discriminate.
  - apply (proj2 (CipherMore.encryptPayload_size_limit (W:=platform) large key1
                    (draw 32 dice).1 dice GCM_lengths_holds Runs.key1_imports)).
    unfold large. rewrite letters_encoded_length. cbn [argument_limit platform]. lia.
Defined.

(** Witness of X9: the first and the last low surrogate. *)
Lemma hashString_lone_surrogates_collide_run :
  hashString digest (0xDC00 :: js "a") = hashString digest (0xDFFF :: js "a").
Proof.
  apply (Hashing.hashString_lone_surrogates_collide digest 0xDC00 0xDFFF (js "a"));
    reflexivity.
Defined.

(** Witness of X10: a PEM file of one line. *)
Lemma importPublicKey_accepts_pem_run :
  importPublicKey (pemHeader ++ pem_body ++ pemFooter ++ [10])
  = importPublicKey (JsString.remove_whitespace pem_body).
Proof.
  apply (WrapperMore.importPublicKey_accepts_pem pem_body [10]).
  - vm_compute. intuition discriminate.
  - reflexivity.
Defined.

(** Witness of X11. *)
Lemma encryptAESKey_result_run :
  exists aesKeyBytes publicKey ct,
    Base64.atob_bytes key1 = Ok aesKeyBytes
    /\ importPublicKey (js "MIIB") = Ok publicKey
    /\ RSA_OAEP_SHA256 (material publicKey) (draw 32 dice).1 aesKeyBytes = Some ct
    /\ wrapped1 = Base64.btoa_bytes ct
    /\ (draw 32 dice).2 = (draw 32 dice).2.
Proof.
  exact (WrapperMore.encryptAESKey_result key1 (js "MIIB") dice (draw 32 dice).2
           (Ok wrapped1) wrapped1_run).
Defined.

(** Witness of X13. *)
Lemma secureSubmission_recoverable_run :
  exists statusText d publicKey ct raw,
    fetched1 = FetchResponse true statusText (Some (Some d))
    /\ SecureCard.sessionId sent1 = PublicKeyData.sessionId d
    /\ importPublicKey (PublicKeyData.publicKey d) = Ok publicKey
    /\ Base64.atob_bytes (SecureCard.encryptedKey sent1) = Ok ct
    /\ unwrap (material publicKey) ct = Some raw
    /\ length raw = 32%nat
    /\ decryptPayload (SecureCard.encryptedData sent1) (Base64.btoa_bytes raw)
       = Ok VTrue.
Proof.
  exact (AddCardFlow.secureSubmission_recoverable (W:=platform) VTrue fetched1 dice _ sent1 unwrap
           GCM_lengths_holds GCM_inverse_holds JSON_round_trip_holds
           UTF8_round_trip_holds RSA_inverse_holds sent1_run).
Defined.

(** Witness of X14: the key [MIIB], and a text of two spaces. *)
Lemma imports_agree_on_clean_base64_run :
  importRSAPublicKeyFromBase64 (js "MIIB")
  = match importPublicKey (js "MIIB") with
    | Ok k => Ok {| material := material k; extractable := true |}
    | Throw x => Throw x
    end
  /\ importRSAPublicKeyFromBase64 (js "  ") = Throw import_failure.
Proof.
  split.
  - apply (proj1 (ImportsCompared.imports_agree_on_clean_base64 (js "MIIB"))).
    + reflexivity.
    + vm_compute. intuition discriminate.
    + discriminate.
  - apply (proj2 (ImportsCompared.imports_agree_on_clean_base64 (js "  "))).
    reflexivity.
Defined.

(** Witness of X16: the store of [pending]. *)
Lemma store_shape_preserved_run :
  (forall payload payloadType reply r st',
      encryptRequest payload payloadType reply pending = (r, st') ->
      store_ok (aesKeyStore st'))
  /\ (forall encryptedResponse r st',
        decryptResponse encryptedResponse pending = (r, st') ->
        store_ok (aesKeyStore st'))
  /\ (forall sessionId aesKey,
        aesKeyStore pending !! sessionId = Some aesKey ->
        JsString.truthy aesKey = true
        /\ exists raw, importKey aesKey = Ok raw /\ length raw = 32%nat).
Proof. exact (SessionMore.store_shape_preserved (W:=platform) pending pending_store_ok). Defined.

(** Witness of X17: the request of [session-2] leaves the key of
    [session-1]. *)
Lemma encryptRequest_keeps_other_sessions_run :
  aesKeyStore pending2 !! sid1 = aesKeyStore pending !! sid1.
Proof.
  apply (SessionMore.encryptRequest_keeps_other_sessions (W:=platform) VFalse None
           reply2 pending
           pending2 (Ok request2) sid1 pending2_run).
  unfold reply2. intros d [= <-]. discriminate.
Defined.

(** Witness of X18: the responses of [session-1] and [session-2]. *)
Lemma decryptResponse_commutes_run :
  exists st1',
    decryptResponse echoed2 pending2 = (Ok VFalse, st1')
    /\ decryptResponse echoed st1' = (Ok VTrue, with_store pending2 ∅).
Proof.
  apply (SessionMore.decryptResponse_commutes (W:=platform) echoed echoed2 pending2
           (decryptResponse echoed pending2).2 (with_store pending2 ∅)
           (Ok VTrue) (Ok VFalse)).
  - discriminate.
  - exact echoed_first.
  - exact echoed2_second.
Defined.

(** Witness of X19: the request of [start], answered with [false]. *)
Lemma request_then_response_run :
  let aesKey := Base64.btoa_bytes (draw 32 (random start)).1 in
  exists envelope,
    encryptPayload VFalse (Some aesKey) dice
    = (Ok {| encryptedData := envelope; encryptionKey := aesKey |}, (draw 12 dice).2)
    /\ decryptResponse
         {| EncryptedResponse.sessionId := EncryptedRequest.sessionId request1;
            EncryptedResponse.encryptedData := envelope;
            EncryptedResponse.encryptedKey := [] |} pending
       = (Ok VFalse,
          with_store pending
            (delete (EncryptedRequest.sessionId request1) (aesKeyStore pending))).
Proof.
  refine (SessionMore.request_then_response (W:=platform) VTrue None reply1 start
            pending request1 VFalse dice []
            GCM_lengths_holds GCM_inverse_holds JSON_round_trip_holds
            UTF8_round_trip_holds Runs.start_run _ _); vm_compute; discriminate.
Defined.

(** Witness of X20: the answer [unusable]. *)
Lemma failed_request_leaves_key_run :
  let st' := (encryptRequest VTrue None (Response (Some unusable)) start).2 in
  let fresh := Base64.btoa_bytes (draw 32 (random start)).1 in
  encrypt_failure = encrypt_failure
  /\ aesKeyStore st' = <[PublicKeyData.sessionId unusable := fresh]> (aesKeyStore start)
  /\ aesKeyStore st' !! PublicKeyData.sessionId unusable = Some fresh
  /\ currentSession st'
     = Some {| SessionInfo.sessionId := PublicKeyData.sessionId unusable;
               SessionInfo.publicKey := PublicKeyData.publicKey unusable;
               SessionInfo.expiryTime := PublicKeyData.expiryTime unusable |}.
Proof.
  refine (SessionMore.failed_request_leaves_key (W:=platform) VTrue None unusable
            start _ encrypt_failure _ _ _ unusable_run); vm_compute; discriminate.
Defined.

(** Witness of X23: the key endpoint names the session [__proto__];
    the request is returned, nothing is on file, and the response
    that echoes the request is refused. *)
Lemma proto_session_is_lost_run :
  let run := encryptRequest VTrue None (Response (Some answer_proto)) start in
  let echo :=
    {| EncryptedResponse.sessionId := JsObject.proto;
       EncryptedResponse.encryptedData := EncryptedRequest.encryptedData request1;
       EncryptedResponse.encryptedKey := [] |} in
  (exists req, run.1 = Ok req /\ EncryptedRequest.sessionId req = JsObject.proto)
  /\ aesKeyStore run.2 = aesKeyStore start
  /\ decryptResponse echo run.2 = (Throw decrypt_failure, run.2).
Proof.
  cbv zeta. split; [vm_compute; eexists; split; reflexivity|].
  apply (SessionMore.proto_session_is_lost (W:=platform) VTrue None answer_proto
           start _ _ _ eq_refl (surjective_pairing _)); reflexivity.
Defined.

End MoreRuns.
